(** * Audit log of pkg/auth/audit: redaction, header filter, body capture and
      record assembly, embedded from audit.go.

    Byte slices ([[]byte]) and Go strings are both sequences of octets; they
    are carried by [string], whose characters are exactly the 256 octets.
    Go maps are [gmap]s.  Code that writes through a pointer returns the new
    value of what it wrote next to its result. *)

From Stdlib Require Import ZArith Ascii String DecimalString.
From stdpp Require Import gmap strings list fin_maps.

#[local] Open Scope string_scope.
#[local] Unset Elimination Schemes.

Abbreviation bytes := string (only parsing).

(** Go's [error] values are carried by their message. *)
Definition error : Type := string.

Inductive result (A : Type) : Type :=
| Ok (a : A)
| Err (e : error).
Arguments Ok {A} a.
Arguments Err {A} e.

(** ** Constants (audit.go, lines 19-38) *)

Definition contentTypeJSON : string := "application/json".
Definition redacted : string := "[redacted]".

Definition levelNull : Z := 0.
Definition levelMetadata : Z := 1.
Definition levelRequest : Z := 2.
Definition levelRequestResponse : Z := 3.

Definition bodyMethods : gmap string bool :=
  <["PUT" := true]> (<["POST" := true]> ∅).

(** [bodyMethods[k]]: reading a missing key of a Go map gives the zero value. *)
Definition bodyMethod (k : string) : bool := default false (bodyMethods !! k).

Definition sensitiveRequestHeader : list string := ["Cookie"; "Authorization"].
Definition sensitiveResponseHeader : list string := ["Cookie"; "Set-Cookie"].

(** ** Values of [interface{}] as encoding/json decodes them

    A decoded body is a tree: objects are [map[string]interface{}], arrays
    are [[]interface{}], numbers are [float64] (kept as the 64-bit IEEE-754
    pattern, the audit code never looks inside one).  The decoder builds a
    fresh map for every object, so no two places of the tree share a map and
    an update in place of a nested map is an update of that subtree. *)

Definition float64 : Type := Z.

Inductive JSON : Type :=
| JNull
| JBool (b : bool)
| JNum (f : float64)
| JStr (s : string)
| JArr (l : list JSON)
| JObj (m : gmap string JSON).
Arguments JNum f%_Z.

(** [v.(string)] and [v.(map[string]interface{})] on the result of a map
    read; a failed assertion leaves the nil map. *)
Definition asMap (v : option JSON) : option (gmap string JSON) :=
  match v with
  | Some (JObj d) => Some d
  | _ => None
  end.

Definition isString (v : JSON) : bool :=
  match v with
  | JStr _ => true
  | _ => false
  end.

Definition isObject (v : JSON) : bool :=
  match v with
  | JObj _ => true
  | _ => false
  end.

(** Number of constructors of a tree, the measure for inductions on it. *)
Fixpoint weight (v : JSON) : nat :=
  match v with
  | JArr l => S (foldr (λ x n, weight x + n) 0 l)
  | JObj m => S (map_fold (λ _ x n, weight x + n) 0 m)
  | _ => 1
  end.

(** Reading along a chain of object keys; arrays are not entered. *)
Fixpoint lookupPath (p : list string) (v : JSON) : option JSON :=
  match p with
  | [] => Some v
  | k :: p' =>
      match v with
      | JObj m => m !! k ≫= lookupPath p'
      | _ => None
      end
  end.

(** ** Pieces of the Go library that the code calls *)

(** [strings.Contains] *)
Fixpoint strings_Contains (s substr : string) : bool :=
  String.prefix substr s ||
  match s with
  | EmptyString => false
  | String _ s' => strings_Contains s' substr
  end.

(** [bytes.TrimSuffix]: drops one occurrence of [suffix] at the end. *)
Fixpoint bytes_TrimSuffix (s suffix : bytes) : bytes :=
  if String.eqb s suffix then EmptyString
  else match s with
       | EmptyString => EmptyString
       | String c s' => String c (bytes_TrimSuffix s' suffix)
       end.

(** The quotation mark, a text between quotation marks, and a Go raw-string
    literal of the form [`,"name":`]. *)
Definition dquote : ascii := "034"%char.

Definition quoted (s : string) : string :=
  String dquote (s ++ String dquote EmptyString).

Definition rawField (name : string) : bytes :=
  "," ++ quoted name ++ ":".

Definition newline : bytes := String "010"%char EmptyString.

(** [io.Writer]: the sink records the payload of every [Write] call and
    answers with its [fault]. *)
Record Writer : Type := mkWriter {
  calls : list bytes;
  fault : option error
}.

Definition Writer_Write (w : Writer) (p : bytes) : Writer * option error :=
  (mkWriter (calls w ++ [p]) (fault w), fault w).

(** [io.Reader]: a stream hands out [pending] and then ends, with
    [failure] when the underlying read breaks. *)
Record Stream : Type := mkStream {
  pending : bytes;
  failure : option error
}.

(** [ioutil.ReadAll], with the stream as it is left *)
Definition ioutil_ReadAll (r : Stream) : result bytes * Stream :=
  match failure r with
  | Some e => (Err e, mkStream EmptyString (Some e))
  | None => (Ok (pending r), mkStream EmptyString None)
  end.

(** [ioutil.NopCloser(bytes.NewBuffer(b))] *)
Definition bytes_NewBuffer (b : bytes) : Stream := mkStream b None.

Module http.

(** [http.Header]. [Get] is called with keys already in canonical form. *)
Abbreviation Header := (gmap string (list string)) (only parsing).

Definition Get (h : Header) (key : string) : string :=
  match h !! key with
  | Some (v :: _) => v
  | _ => EmptyString
  end.

Record Request : Type := mkRequest {
  RequestURI : string;
  Method : string;
  RemoteAddr : string;
  Header_ : Header;
  Body : Stream
}.

Definition withBody (req : Request) (b : Stream) : Request :=
  mkRequest (RequestURI req) (Method req) (RemoteAddr req) (Header_ req) b.

End http.

(** ** Header filter (audit.go, lines 159-177) *)

Fixpoint isExist (array : list string) (key : string) : bool :=
  match array with
  | [] => false
  | v :: array' => if String.eqb v key then true else isExist array' key
  end.

(** The two maps that [filterOutHeaders] holds while it runs: the caller's
    [headers] and the [newHeader] it builds. *)
Record headerStore : Type := mkHeaderStore {
  headers : http.Header;
  newHeader : http.Header
}.

(** One round of the loop, at the entry [k], [v] of [headers]. *)
Definition filterOutHeaders_body (filterKeys : list string)
    (k : string) (v : list string) (st : headerStore) : headerStore :=
  if isExist filterKeys k then st
  else mkHeaderStore (headers st) (<[k := v]> (newHeader st)).

(** The loop over a given visiting order of the entries. *)
Definition filterOutHeaders_loop (filterKeys : list string)
    (order : list (string * list string)) (st : headerStore) : headerStore :=
  foldr (uncurry (filterOutHeaders_body filterKeys)) st order.

(** The function, with the store it leaves; [range] visits the entries in
    an order of the runtime's choosing, here the one of [map_fold]. *)
Definition filterOutHeaders_run (hdrs : http.Header) (filterKeys : list string)
    : headerStore :=
  map_fold (filterOutHeaders_body filterKeys) (mkHeaderStore hdrs ∅) hdrs.

Definition filterOutHeaders (hdrs : http.Header) (filterKeys : list string)
    : http.Header :=
  newHeader (filterOutHeaders_run hdrs filterKeys).

(** ** Body capture (audit.go, lines 145-157)

    The request is passed by pointer: the second component is the request
    as the call leaves it. *)
Definition readBodyWithoutLosingContent (req : http.Request)
    : result bytes * http.Request :=
  if negb (bodyMethod (http.Method req)) then (Ok EmptyString, req)
  else
    let '(r, drained) := ioutil_ReadAll (http.Body req) in
    match r with
    | Err err => (Err err, http.withBody req drained)
    | Ok bodyBytes =>
        (Ok bodyBytes, http.withBody req (bytes_NewBuffer bodyBytes))
    end.

(** ** The audit record (audit.go, lines 40-71) *)

Record User : Type := mkUser {
  Name : string;
  Group : list string;
  RequestUser : string;
  RequestGroups : list string
}.

Record log : Type := mkLog {
  AuditID : string;
  RequestURI : string;
  User_ : option User;
  Method : string;
  RemoteAddr : string;
  RequestTimestamp : string;
  ResponseTimestamp : string;
  ResponseCode : Z;
  RequestHeader : http.Header;
  ResponseHeader : http.Header;
  RequestBody : bytes;
  ResponseBody : bytes
}.

Record LogWriter : Type := mkLogWriter {
  Level : Z;
  Output : Writer
}.

(** A compiled [*regexp.Regexp] is used through [MatchString] alone. *)
Record Regexp : Type := mkRegexp {
  MatchString : string → bool
}.

(** The field [log] of the Go struct is [log_] here, the name being taken
    by its type. *)
Record auditLog : Type := mkAuditLog {
  log_ : log;
  writer : LogWriter;
  reqBody : bytes;
  keysToConcealRegex : Regexp
}.

(** ** encoding/json

    The package is not part of the repository; the code is embedded over its
    four uses: [Unmarshal] into a [map[string]interface{}] (the nil map that
    a body [null] leaves reads as the empty one, and the code never writes
    to it), [Marshal] of such a map, [Marshal] of a [*log], and [Compact]. *)
Class EncodingJSON : Type := mkEncodingJSON {
  json_Unmarshal : bytes → result (gmap string JSON);
  json_Marshal : gmap string JSON → result bytes;
  json_MarshalLog : log → result bytes;
  json_Compact : bytes → result bytes
}.

(** ** Redaction (audit.go, lines 179-231) *)

(** One round of the loop of [concealMap], at the entry [key] whose value
    is [x]; [rec] is the recursive call on a nested map.  The state is the
    flag [changed] and the map [m] being rewritten in place.  A nested map is
    rewritten in place by the recursive call whatever it returns, so its new
    value is stored on both outcomes. *)
Definition concealMap_body (re : Regexp) (rec : JSON → bool * JSON)
    (key : string) (x : JSON) (st : bool * gmap string JSON)
    : bool * gmap string JSON :=
  match x with
  | JStr _ =>
      if MatchString re key then (true, <[key := JStr redacted]> st.2)
      else st
  | JObj _ =>
      let '(c, nested) := rec x in
      (if c then true else st.1, <[key := nested]> st.2)
  | _ => st
  end.

(** [concealMap] on the map held by a value; other values hold no map. *)
Fixpoint concealNested (re : Regexp) (v : JSON) {struct v} : bool * JSON :=
  match v with
  | JObj m =>
      let r := map_fold (concealMap_body re (concealNested re)) (false, m) m in
      (r.1, JObj r.2)
  | _ => (false, v)
  end.

(** The loop of [concealMap], started on the map it ranges over. *)
Definition concealLoop (re : Regexp) (m : gmap string JSON)
    : bool * gmap string JSON :=
  map_fold (concealMap_body re (concealNested re)) (false, m) m.

(** [a.concealMap(m)]: the flag it returns and the map as it leaves it. *)
Definition concealMap (a : auditLog) (m : gmap string JSON)
    : bool * gmap string JSON :=
  concealLoop (keysToConcealRegex a) m.

(** What one round of the loop of [concealMap] leaves under [key] when it
    finds [x] there, and whether it sets the flag. *)
Definition concealEntry (re : Regexp) (key : string) (x : JSON)
    : bool * JSON :=
  match x with
  | JStr _ =>
      if MatchString re key then (true, JStr redacted) else (false, x)
  | JObj _ => concealNested re x
  | _ => (false, x)
  end.

(** Lines 195-197: every value of [data] becomes the marker. *)
Definition redactAll (data : gmap string JSON) : gmap string JSON :=
  (λ _, JStr redacted) <$> data.

(** Lines 185-202: the values of a Secret's [data], or else [stringData],
    are overwritten; returns the flag [changed] and the map. *)
Definition concealSecretData (requestURI : string) (m : gmap string JSON)
    : bool * gmap string JSON :=
  if strings_Contains requestURI "secrets" then
    let dataKey := "data" in
    let data := asMap (m !! dataKey) in
    let '(dataKey, data) :=
      match data with
      | None => ("stringData", asMap (m !! "stringData"))
      | Some _ => (dataKey, data)
      end in
    match data with
    | Some d => (true, <[dataKey := JObj (redactAll d)]> m)
    | None => (false, m)
    end
  else (false, m).

(** The tree as it stands when [concealSensitiveData] reaches line 208,
    with the disjunction of the two flags. *)
Definition concealTree (a : auditLog) (requestURI : string)
    (m : gmap string JSON) : bool * gmap string JSON :=
  let '(changed, m) := concealSecretData requestURI m in
  let '(changedByKey, m) := concealMap a m in
  (changedByKey || changed, m).

Definition concealSensitiveData `{EncodingJSON} (a : auditLog)
    (requestURI : string) (body : bytes) : bytes :=
  match json_Unmarshal body with
  | Err _ => body
  | Ok m =>
      let '(changed, m) := concealSecretData requestURI m in
      let '(changedByKey, m) := concealMap a m in
      if negb changedByKey && negb changed then body
      else
        match json_Marshal m with
        | Err _ => body
        | Ok newBody => newBody
        end
  end.

(** The decoder reads back what the encoder wrote for the tree [m]. *)
Definition roundTrips `{EncodingJSON} (m : gmap string JSON) : Prop :=
  ∀ b, json_Marshal m = Ok b → json_Unmarshal b = Ok m.

(** ** The session (audit.go, lines 86-143) *)

(** [uid] is the string of [uuid.NewRandom()] and [now] the formatted
    [time.Now()] of the call. *)
Definition newAuditLog (writer : LogWriter) (req : http.Request)
    (keysToConcealRegex : Regexp) (uid now : string)
    : result auditLog * http.Request :=
  let auditLog :=
    mkAuditLog
      (mkLog uid (http.RequestURI req) None (http.Method req)
         (http.RemoteAddr req) now EmptyString 0 ∅ ∅ EmptyString EmptyString)
      writer EmptyString keysToConcealRegex in
  let contentType := http.Get (http.Header_ req) "Content-Type" in
  if (levelRequest <=? Level writer)%Z && bodyMethod (http.Method req)
     && String.eqb contentType contentTypeJSON
  then
    let '(r, req) := readBodyWithoutLosingContent req in
    match r with
    | Err err => (Err err, req)
    | Ok reqBody =>
        (Ok (mkAuditLog (log_ auditLog) writer reqBody keysToConcealRegex),
         req)
    end
  else (Ok auditLog, req).

(** Lines 111-115: the fields that [write] sets on the record. *)
Definition finalize (l : log) (userInfo : option User)
    (reqHeaders resHeaders : http.Header) (resCode : Z) (now : string) : log :=
  mkLog (AuditID l) (RequestURI l) userInfo (Method l) (RemoteAddr l)
    (RequestTimestamp l) now resCode
    (filterOutHeaders reqHeaders sensitiveRequestHeader)
    (filterOutHeaders resHeaders sensitiveResponseHeader)
    (RequestBody l) (ResponseBody l).

(** Lines 124-127: what the first [if] appends to the buffer. *)
Definition requestBodyField `{EncodingJSON} (a : auditLog) : bytes :=
  if (levelRequest <=? Level (writer a))%Z
     && (0 <? String.length (reqBody a))%nat
  then rawField "requestBody"
       ++ bytes_TrimSuffix
            (concealSensitiveData a (RequestURI (log_ a)) (reqBody a))
            newline
  else EmptyString.

(** Lines 128-131: what the second [if] appends. *)
Definition responseBodyField `{EncodingJSON} (a : auditLog)
    (resHeaders : http.Header) (resBody : bytes) : bytes :=
  if (levelRequestResponse <=? Level (writer a))%Z
     && String.eqb (http.Get resHeaders "Content-Type") contentTypeJSON
     && (0 <? String.length resBody)%nat
  then rawField "responseBody"
       ++ bytes_TrimSuffix
            (concealSensitiveData a (RequestURI (log_ a)) resBody)
            newline
  else EmptyString.

(** Lines 117-132: the buffer as the writes leave it, given the encoding
    [alByte] of the record. *)
Definition assemble `{EncodingJSON} (a : auditLog) (alByte : bytes)
    (resHeaders : http.Header) (resBody : bytes) : bytes :=
  bytes_TrimSuffix alByte "}"
  ++ requestBodyField a
  ++ responseBodyField a resHeaders resBody
  ++ "}".

(** [a.write]: the error it returns and the session as it leaves it (the
    record with its response fields set, the sink with the calls made). *)
Definition write `{EncodingJSON} (a : auditLog) (userInfo : option User)
    (reqHeaders resHeaders : http.Header) (resCode : Z) (resBody : bytes)
    (now : string) : option error * auditLog :=
  let a :=
    mkAuditLog
      (finalize (log_ a) userInfo reqHeaders resHeaders resCode now)
      (writer a) (reqBody a) (keysToConcealRegex a) in
  match json_MarshalLog (log_ a) with
  | Err err => (Some err, a)
  | Ok alByte =>
      let buffer := assemble a alByte resHeaders resBody in
      match json_Compact buffer with
      | Err err => (Some ("compact audit log json failed: " ++ err), a)
      | Ok compactBuffer =>
          let '(out, err) :=
            Writer_Write (Output (writer a)) (compactBuffer ++ newline) in
          (err,
           mkAuditLog (log_ a) (mkLogWriter (Level (writer a)) out)
             (reqBody a) (keysToConcealRegex a))
      end
  end.

(** ** A reference codec

    A small implementation of the four entry points of encoding/json, on
    the part of JSON it covers: ASCII text, and numbers that are integer
    literals below 2^53 in magnitude (which [float64] holds exactly and
    Go prints back digit for digit).  Text outside that part is refused.
    It serves to run the embedded code on concrete bodies. *)

Module RefJSON.

Definition backslash : ascii := "\"%char.

Definition isSpace (c : ascii) : bool :=
  Ascii.eqb c " " || Ascii.eqb c "009" || Ascii.eqb c "010"
  || Ascii.eqb c "013".

Definition isDigit (c : ascii) : bool :=
  (48 <=? nat_of_ascii c)%nat && (nat_of_ascii c <=? 57)%nat.

Fixpoint skipSpace (s : string) : string :=
  match s with
  | String c r => if isSpace c then skipSpace r else s
  | EmptyString => s
  end.

(** The [float64] pattern of an integer of magnitude below 2^53. *)
Definition float64_of_nat (n : Z) : float64 :=
  if (n =? 0)%Z then 0%Z
  else
    let e := Z.log2 n in
    ((e + 1023) * 2 ^ 52 + (n - 2 ^ e) * 2 ^ (52 - e))%Z.

Definition float64_of_int (negative : bool) (n : Z) : option float64 :=
  if (n <? 2 ^ 53)%Z
  then Some ((if negative then 2 ^ 63 else 0) + float64_of_nat n)%Z
  else None.

(** The integer that a pattern stands for, when it is one below 2^53. *)
Definition int_of_float64 (f : float64) : option (bool * Z) :=
  let negative := (2 ^ 63 <=? f)%Z in
  let r := (f mod 2 ^ 63)%Z in
  if (r =? 0)%Z then Some (negative, 0%Z)
  else
    let e := (r / 2 ^ 52 - 1023)%Z in
    let mant := (r mod 2 ^ 52)%Z in
    if (0 <=? e)%Z && (e <=? 52)%Z && (mant mod 2 ^ (52 - e) =? 0)%Z
       && (0 <=? f)%Z && (f <? 2 ^ 64)%Z
    then Some (negative, (2 ^ e + mant / 2 ^ (52 - e))%Z)
    else None.

Fixpoint scanDigits (s : string) (acc : Z) : Z * string :=
  match s with
  | String c r =>
      if isDigit c
      then scanDigits r (10 * acc + Z.of_nat (nat_of_ascii c - 48))%Z
      else (acc, s)
  | EmptyString => (acc, s)
  end.

Definition startsFraction (s : string) : bool :=
  match s with
  | String c _ => Ascii.eqb c "." || Ascii.eqb c "e" || Ascii.eqb c "E"
  | EmptyString => false
  end.

(** An optional minus sign, then 0 or digits without a leading 0, with no
    fraction and no exponent after them. *)
Definition scanNumber (s : string) : option (JSON * string) :=
  let '(negative, s) :=
    match s with
    | String "-" r => (true, r)
    | _ => (false, s)
    end in
  match s with
  | String c r =>
      if negb (isDigit c) then None
      else
        let '(n, rest) :=
          if Ascii.eqb c "0" then (0%Z, r) else scanDigits s 0 in
        match rest with
        | String d _ =>
            if isDigit d || startsFraction rest then None
            else f ← float64_of_int negative n; Some (JNum f, rest)
        | EmptyString => f ← float64_of_int negative n; Some (JNum f, rest)
        end
  | EmptyString => None
  end.

Definition hexValue (c : ascii) : option nat :=
  let n := nat_of_ascii c in
  if isDigit c then Some (n - 48)
  else if (97 <=? n)%nat && (n <=? 102)%nat then Some (n - 87)
  else if (65 <=? n)%nat && (n <=? 70)%nat then Some (n - 55)
  else None.

Definition unescape (c : ascii) : option ascii :=
  if Ascii.eqb c dquote then Some dquote
  else if Ascii.eqb c backslash then Some backslash
  else if Ascii.eqb c "/" then Some "/"%char
  else if Ascii.eqb c "b" then Some "008"%char
  else if Ascii.eqb c "f" then Some "012"%char
  else if Ascii.eqb c "n" then Some "010"%char
  else if Ascii.eqb c "r" then Some "013"%char
  else if Ascii.eqb c "t" then Some "009"%char
  else None.

(** The text of a string literal after its opening quotation mark. *)
Fixpoint scanString (s : string) : option (string * string) :=
  match s with
  | EmptyString => None
  | String c r =>
      if Ascii.eqb c dquote then Some (EmptyString, r)
      else if Ascii.eqb c backslash then
        match r with
        | String "u" (String h1 (String h2 (String h3 (String h4 r')))) =>
            a ← hexValue h1; b ← hexValue h2;
            c ← hexValue h3; d ← hexValue h4;
            let n := (((a * 16 + b) * 16 + c) * 16 + d)%nat in
            if (n <? 128)%nat
            then p ← scanString r'; Some (String (ascii_of_nat n) p.1, p.2)
            else None
        | String e r' =>
            c' ← unescape e;
            p ← scanString r'; Some (String c' p.1, p.2)
        | EmptyString => None
        end
      else if (nat_of_ascii c <? 32)%nat || (127 <? nat_of_ascii c)%nat
      then None
      else p ← scanString r; Some (String c p.1, p.2)
  end.

Definition literal (word : string) (v : JSON) (s : string)
    : option (JSON * string) :=
  if String.prefix word s
  then Some (v, String.substring (String.length word)
                  (String.length s - String.length word) s)
  else None.

Fixpoint parseValue (fuel : nat) (s : string) : option (JSON * string) :=
  match fuel with
  | O => None
  | S fuel =>
      match skipSpace s with
      | EmptyString => None
      | String c r =>
          if Ascii.eqb c "{" then
            match skipSpace r with
            | String "}" r' => Some (JObj ∅, r')
            | _ => parseMembers fuel r ∅
            end
          else if Ascii.eqb c "[" then
            match skipSpace r with
            | String "]" r' => Some (JArr [], r')
            | _ => parseElements fuel r []
            end
          else if Ascii.eqb c dquote then
            p ← scanString r; Some (JStr p.1, p.2)
          else if Ascii.eqb c "t" then literal "true" (JBool true) (String c r)
          else if Ascii.eqb c "f" then literal "false" (JBool false) (String c r)
          else if Ascii.eqb c "n" then literal "null" JNull (String c r)
          else scanNumber (String c r)
      end
  end
with parseMembers (fuel : nat) (s : string) (acc : gmap string JSON)
    : option (JSON * string) :=
  match fuel with
  | O => None
  | S fuel =>
      match skipSpace s with
      | String c r =>
          if Ascii.eqb c dquote then
            k ← scanString r;
            match skipSpace k.2 with
            | String ":" r2 =>
                v ← parseValue fuel r2;
                match skipSpace v.2 with
                | String "," r4 => parseMembers fuel r4 (<[k.1 := v.1]> acc)
                | String "}" r4 => Some (JObj (<[k.1 := v.1]> acc), r4)
                | _ => None
                end
            | _ => None
            end
          else None
      | EmptyString => None
      end
  end
with parseElements (fuel : nat) (s : string) (acc : list JSON)
    : option (JSON * string) :=
  match fuel with
  | O => None
  | S fuel =>
      v ← parseValue fuel s;
      match skipSpace v.2 with
      | String "," r => parseElements fuel r (acc ++ [v.1])
      | String "]" r => Some (JArr (acc ++ [v.1]), r)
      | _ => None
      end
  end.

(** A whole text holding one value. *)
Definition parse (s : string) : option JSON :=
  p ← parseValue (2 * String.length s + 2) s;
  match skipSpace p.2 with
  | EmptyString => Some p.1
  | _ => None
  end.

Definition Unmarshal (body : bytes) : result (gmap string JSON) :=
  match parse body with
  | Some (JObj m) => Ok m
  | Some JNull => Ok ∅
  | Some _ => Err "json: cannot unmarshal into Go value of type map[string]interface {}"
  | None => Err "invalid character"
  end.

(** *** Encoding *)

Definition hexDigit (n : nat) : ascii :=
  ascii_of_nat (if (n <? 10)%nat then n + 48 else n + 87).

(** One character of a string literal, as Go's encoder writes it. *)
Definition escape (c : ascii) : option string :=
  let n := nat_of_ascii c in
  if Ascii.eqb c dquote then Some (String backslash (String dquote ""))
  else if Ascii.eqb c backslash then Some (String backslash (String backslash ""))
  else if Ascii.eqb c "010" then Some (String backslash "n")
  else if Ascii.eqb c "013" then Some (String backslash "r")
  else if Ascii.eqb c "009" then Some (String backslash "t")
  else if (n <? 32)%nat || Ascii.eqb c "<" || Ascii.eqb c ">"
          || Ascii.eqb c "&"
  then Some (String backslash
               ("u00" ++ String (hexDigit (n / 16))
                           (String (hexDigit (n mod 16)) "")))
  else if (127 <? n)%nat then None
  else Some (String c "").

Fixpoint escapeAll (s : string) : option string :=
  match s with
  | EmptyString => Some EmptyString
  | String c r => e ← escape c; t ← escapeAll r; Some (e ++ t)
  end.

Definition quote (s : string) : option string :=
  t ← escapeAll s; Some (String dquote t ++ String dquote "").

Definition printNumber (f : float64) : option string :=
  match int_of_float64 f with
  | Some (negative, n) =>
      Some ((if negative then "-" else "")
            ++ DecimalString.NilZero.string_of_uint (N.to_uint (Z.to_N n)))
  | None => None
  end.

Fixpoint join (sep : string) (l : list string) : string :=
  match l with
  | [] => EmptyString
  | [x] => x
  | x :: l' => x ++ sep ++ join sep l'
  end.

(** Go writes the keys of a map in increasing order. *)
Fixpoint insertSorted {A} (kv : string * A) (l : list (string * A))
    : list (string * A) :=
  match l with
  | [] => [kv]
  | kv' :: l' =>
      if String.leb kv.1 kv'.1 then kv :: l
      else kv' :: insertSorted kv l'
  end.

Definition sortedEntries {A} (m : gmap string A) : list (string * A) :=
  foldr insertSorted [] (map_to_list m).

Definition printMember (kv : string * option string) : option string :=
  k ← quote kv.1; v ← kv.2; Some (k ++ ":" ++ v).

Definition printObject (m : gmap string (option string)) : option string :=
  l ← mapM printMember (sortedEntries m);
  Some ("{" ++ join "," l ++ "}").

Fixpoint printValue (v : JSON) : option string :=
  match v with
  | JNull => Some "null"
  | JBool true => Some "true"
  | JBool false => Some "false"
  | JNum f => printNumber f
  | JStr s => quote s
  | JArr l => t ← mapM printValue l; Some ("[" ++ join "," t ++ "]")
  | JObj m => printObject (printValue <$> m)
  end.

Definition ofOption (o : option string) : result bytes :=
  match o with
  | Some b => Ok b
  | None => Err "json: unsupported value"
  end.

Definition Marshal (m : gmap string JSON) : result bytes :=
  ofOption (printValue (JObj m)).

(** A field with [omitempty]: nothing when [empty], else the member. *)
Definition field (name : string) (empty : bool) (v : option string)
    : option (list string) :=
  if empty then Some []
  else t ← v; k ← quote name; Some [k ++ ":" ++ t].

Definition printStrings (l : list string) : option string :=
  printValue (JArr (JStr <$> l)).

Definition printHeader (h : http.Header) : option string :=
  printObject ((λ l, printStrings l) <$> h).

Definition isEmpty (s : string) : bool := String.eqb s EmptyString.

Definition printStruct (fields : list (option (list string)))
    : option string :=
  l ← mapM id fields; Some ("{" ++ join "," (concat l) ++ "}").

Definition printUser (u : User) : option string :=
  printStruct
    [ field "name" (isEmpty (Name u)) (quote (Name u));
      field "group" (bool_decide (Group u = [])) (printStrings (Group u));
      field "requestUser" (isEmpty (RequestUser u)) (quote (RequestUser u));
      field "requestGroups" (bool_decide (RequestGroups u = []))
        (printStrings (RequestGroups u)) ].

(** [requestBody] and [responseBody] of the struct are byte slices, which
    Go writes in base64; the code never sets them, a record that holds one
    is outside the part covered. *)
Definition MarshalLog (l : log) : result bytes :=
  if negb (isEmpty (RequestBody l) && isEmpty (ResponseBody l))
  then Err "json: unsupported value"
  else
    ofOption
      (printStruct
         [ field "auditID" (isEmpty (AuditID l)) (quote (AuditID l));
           field "requestURI" (isEmpty (RequestURI l)) (quote (RequestURI l));
           field "user" (bool_decide (User_ l = None))
             (User_ l ≫= printUser);
           field "method" (isEmpty (Method l)) (quote (Method l));
           field "remoteAddr" (isEmpty (RemoteAddr l)) (quote (RemoteAddr l));
           field "requestTimestamp" (isEmpty (RequestTimestamp l))
             (quote (RequestTimestamp l));
           field "responseTimestamp" (isEmpty (ResponseTimestamp l))
             (quote (ResponseTimestamp l));
           field "responseCode" (ResponseCode l =? 0)%Z
             (Some (DecimalString.NilZero.string_of_int
                      (Z.to_int (ResponseCode l))));
           field "requestHeader" (bool_decide (RequestHeader l = ∅))
             (printHeader (RequestHeader l));
           field "responseHeader" (bool_decide (ResponseHeader l = ∅))
             (printHeader (ResponseHeader l)) ]).

(** *** Compaction *)

(** Drops the white space that stands outside string literals. *)
Fixpoint stripSpace (inString escaped : bool) (s : string) : string :=
  match s with
  | EmptyString => EmptyString
  | String c r =>
      if inString then
        String c
          (stripSpace (escaped || negb (Ascii.eqb c dquote))
             (negb escaped && Ascii.eqb c backslash) r)
      else if isSpace c then stripSpace false false r
      else String c (stripSpace (Ascii.eqb c dquote) false r)
  end.

Definition Valid (s : bytes) : bool := bool_decide (is_Some (parse s)).

Definition Compact (src : bytes) : result bytes :=
  if Valid src then Ok (stripSpace false false src)
  else Err "invalid character".

Definition codec : EncodingJSON :=
  mkEncodingJSON Unmarshal Marshal MarshalLog Compact.

(** A text from which there is no white space left to drop. *)
Definition isCompact (s : bytes) : bool :=
  String.eqb (stripSpace false false s) s.

(** [Compact] that looks at what it is about to return and gives it only
    when it is a JSON text with no white space left to drop. *)
Definition CompactChecked (src : bytes) : result bytes :=
  match Compact src with
  | Ok dst =>
      if Valid dst && isCompact dst then Ok dst
      else Err "invalid character"
  | Err e => Err e
  end.

Definition checked : EncodingJSON :=
  mkEncodingJSON Unmarshal Marshal MarshalLog CompactChecked.

End RefJSON.

(** ** Concrete requests, bodies and sessions *)

Definition getWithBody : http.Request :=
  http.mkRequest "/v3/users" "GET" "10.0.0.7:4312" ∅ (mkStream "x" None).

Definition postWithBody : http.Request :=
  http.mkRequest "/v3/users" "POST" "10.0.0.7:4312" ∅ (mkStream "x" None).


(** A pattern in the manner of [[pP]assword|[tT]oken]: an unanchored
    pattern matches a key that holds one of its alternatives. *)
Definition sensitiveKeys : Regexp :=
  mkRegexp (λ key,
    strings_Contains key "password" || strings_Contains key "Password"
    || strings_Contains key "token" || strings_Contains key "Token").

Definition uid0 : string := "6f1c2a9e-58d3-4c0b-9a77-2d1e5b8c4f10".
Definition arrival : string := "2024-05-02T10:15:00Z".
Definition departure : string := "2024-05-02T10:15:01Z".

(** The session of a POST from [10.0.0.7:4312] that holds [body], writing
    to an empty sink that accepts what it is given. *)
Definition session (level : Z) (uri : string) (body : bytes) : auditLog :=
  mkAuditLog
    (mkLog uid0 uri None "POST" "10.0.0.7:4312" arrival EmptyString 0 ∅ ∅
       EmptyString EmptyString)
    (mkLogWriter level (mkWriter [] None)) body sensitiveKeys.

(** [{"users":[{"password":"hunter2"}],"token":12345}] *)
Definition usersBody : bytes :=
  "{" ++ quoted "users" ++ ":[{" ++ quoted "password" ++ ":"
  ++ quoted "hunter2" ++ "}]," ++ quoted "token" ++ ":12345}".

Definition usersTree : gmap string JSON :=
  <["users" := JArr [JObj (<["password" := JStr "hunter2"]> ∅)]]>
    (<["token" := JNum 4668012349850910720]> ∅).

(** [{"spec":{"password":"hunter2","replicas":3}}] *)
Definition specBody : bytes :=
  "{" ++ quoted "spec" ++ ":{" ++ quoted "password" ++ ":"
  ++ quoted "hunter2" ++ "," ++ quoted "replicas" ++ ":3}}".

Definition specTree : gmap string JSON :=
  <["spec" := JObj (<["password" := JStr "hunter2"]>
                      (<["replicas" := JNum 4613937818241073152]> ∅))]> ∅.

(** [{"data":{"tls.key":"c2VjcmV0"},"stringData":{"note":"plain"}}] *)
Definition secretBody : bytes :=
  "{" ++ quoted "data" ++ ":{" ++ quoted "tls.key" ++ ":"
  ++ quoted "c2VjcmV0" ++ "}," ++ quoted "stringData" ++ ":{"
  ++ quoted "note" ++ ":" ++ quoted "plain" ++ "}}".

Definition secretTree : gmap string JSON :=
  <["data" := JObj (<["tls.key" := JStr "c2VjcmV0"]> ∅)]>
    (<["stringData" := JObj (<["note" := JStr "plain"]> ∅)]> ∅).

(** [{ "data": {} }], with its blanks *)
Definition emptySecretBody : bytes :=
  "{ " ++ quoted "data" ++ ": {} }".

(** [{ "password": "[redacted]" }], with its blanks *)
Definition redactedBody : bytes :=
  "{ " ++ quoted "password" ++ ": " ++ quoted redacted ++ " }".

Definition secretsURI : string := "/v1/namespaces/default/secrets".
Definition usersURI : string := "/v3/users".

(** A body that is no JSON text. *)
Definition formBody : bytes := "password=hunter2&user=alice".

(** A PUT whose content type carries a parameter. *)
Definition putWithCharset : http.Request :=
  http.mkRequest "/v3/users/u-1" "PUT" "10.0.0.7:4312"
    (<["Content-Type" := ["application/json; charset=utf-8"]]> ∅)
    (mkStream specBody None).

(** A POST of [specBody] declared as [application/json]. *)
Definition postJSON : http.Request :=
  http.mkRequest usersURI "POST" "10.0.0.7:4312"
    (<["Content-Type" := [contentTypeJSON]]> ∅)
    (mkStream specBody None).

Definition sinkAt (level : Z) : LogWriter :=
  mkLogWriter level (mkWriter [] None).

Definition jsonResponse : http.Header :=
  <["Content-Type" := [contentTypeJSON]]> ∅.

Definition admin : User := mkUser "admin" ["system:authenticated"] "" [].

Definition traced : http.Header :=
  <["Authorization" := ["Bearer xyz"]]> (<["X-Trace" := ["1"]]> ∅).

(** A response body cut short: [{"token":]. *)
Definition brokenBody : bytes := "{" ++ quoted "token" ++ ":".

(** A pattern that matches no key. *)
Definition matchNothing : Regexp := mkRegexp (λ _, false).

(** A POST declared as JSON whose body stream breaks. *)
Definition brokenPost : http.Request :=
  http.mkRequest usersURI "POST" "10.0.0.7:4312"
    (<["Content-Type" := [contentTypeJSON]]> ∅)
    (mkStream "{" (Some "unexpected EOF")).

(** [{ }], with its blank *)
Definition blankObject : bytes := "{ }".

(** A request body that is no JSON text and reads as the end of one member
    and the start of another: [1,"responseBody":{"leak":true}]. *)
Definition forgingBody : bytes :=
  "1," ++ quoted "responseBody" ++ ":{" ++ quoted "leak" ++ ":true}".

Definition forgingPost : http.Request :=
  http.mkRequest usersURI "POST" "10.0.0.7:4312"
    (<["Content-Type" := [contentTypeJSON]]> ∅)
    (mkStream forgingBody None).

(** A response body of the same make: [1,"requestBody":{"forged":true}]. *)
Definition forgingResponse : bytes :=
  "1," ++ quoted "requestBody" ++ ":{" ++ quoted "forged" ++ ":true}".

(** The session that [newAuditLog] makes of [putWithCharset]. *)
Definition charsetSession : auditLog :=
  mkAuditLog
    (mkLog uid0 "/v3/users/u-1" None "PUT" "10.0.0.7:4312" arrival
       EmptyString 0 ∅ ∅ EmptyString EmptyString)
    (sinkAt levelRequestResponse) EmptyString sensitiveKeys.
(** * Properties *)

(** ** Induction on decoded trees *)

Lemma weight_member (m : gmap string JSON) (k : string) (x : JSON) :
  m !! k = Some x → weight x < weight (JObj m).
Proof.
  simpl. revert k x.
  apply (map_fold_weak_ind
           (λ n (m : gmap string JSON), ∀ k x, m !! k = Some x → weight x < S n)).
  - intros k x. by rewrite lookup_empty.
  - intros i y m' n Hi IH k x. rewrite lookup_insert.
    case_decide as Hik; intros Hk.
    + injection Hk as ->. lia.
    + specialize (IH k x Hk). lia.
Qed.

Lemma weight_element (l : list JSON) (x : JSON) :
  x ∈ l → weight x < weight (JArr l).
Proof.
  simpl. induction l as [|y l IH]; intros Hx.
  - by apply elem_of_nil in Hx.
  - apply elem_of_cons in Hx as [->|Hx]; simpl; [lia|].
    specialize (IH Hx). lia.
Qed.

Lemma JSON_ind (P : JSON → Prop) :
  P JNull →
  (∀ b, P (JBool b)) →
  (∀ f, P (JNum f)) →
  (∀ s, P (JStr s)) →
  (∀ l, Forall P l → P (JArr l)) →
  (∀ m, map_Forall (λ _, P) m → P (JObj m)) →
  ∀ v, P v.
Proof.
  intros Hnull Hbool Hnum Hstr Harr Hobj v.
  remember (weight v) as n eqn:Hn. revert v Hn.
  induction n as [n IH] using lt_wf_ind. intros v ->.
  destruct v as [ | b | f | s | l | m ]; auto.
  - apply Harr, Forall_forall. intros x Hx.
    eapply IH; [|reflexivity]. by apply weight_element.
  - apply Hobj. intros k x Hk.
    eapply IH; [|reflexivity]. by eapply weight_member.
Qed.

(** ** The loop of [concealMap] *)

Section ConcealLoop.

Variable re : Regexp.

Lemma concealMap_body_entry (key : string) (x : JSON)
    (st : bool * gmap string JSON) :
  st.2 !! key = Some x →
  concealMap_body re (concealNested re) key x st
  = ((concealEntry re key x).1 || st.1,
     <[key := (concealEntry re key x).2]> st.2).
Proof.
  intros Hkey. destruct st as [c acc]; simpl in *.
  destruct x; simpl; rewrite ?insert_id by done; try done.
  destruct (MatchString re key); simpl; [done|]. by rewrite insert_id.
Qed.

Lemma concealMap_fold (c0 : bool) (m0 m : gmap string JSON) :
  m ⊆ m0 →
  let r := map_fold (concealMap_body re (concealNested re)) (c0, m0) m in
  (∀ k, r.2 !! k
        = match m !! k with
          | Some x => Some (concealEntry re k x).2
          | None => m0 !! k
          end)
  ∧ (r.1 = true
     ↔ c0 = true ∨ ∃ k x, m !! k = Some x ∧ (concealEntry re k x).1 = true).
Proof.
  simpl.
  apply (map_fold_weak_ind
    (λ r (m : gmap string JSON), m ⊆ m0 →
       (∀ k, r.2 !! k
             = match m !! k with
               | Some x => Some (concealEntry re k x).2
               | None => m0 !! k
               end)
       ∧ (r.1 = true
          ↔ c0 = true
            ∨ ∃ k x, m !! k = Some x ∧ (concealEntry re k x).1 = true))).
  - intros _. split; [intros k; by rewrite lookup_empty|].
    simpl. split; [auto|]. intros [?|(k & x & Hk & _)]; [done|].
    by rewrite lookup_empty in Hk.
  - intros i x m' r Hi IH Hsub.
    assert (m' ⊆ m0) as Hsub'.
    { etrans; [|exact Hsub]. by apply insert_subseteq. }
    destruct (IH Hsub') as [IHmap IHflag]; clear IH.
    assert (r.2 !! i = Some x) as Hri.
    { rewrite IHmap, Hi. eapply lookup_weaken; [|exact Hsub].
      apply lookup_insert_eq. }
    rewrite concealMap_body_entry by done. simpl. split.
    + intros k. destruct (decide (i = k)) as [->|Hik].
      * by rewrite !lookup_insert_eq.
      * rewrite !lookup_insert_ne by done. apply IHmap.
    + rewrite orb_true_iff, IHflag. split.
      * intros [He|[?|(k & y & Hk & Hy)]]; [|by left|].
        -- right. exists i, x. by rewrite lookup_insert_eq.
        -- right. exists k, y. split; [|done].
           rewrite lookup_insert_ne; [done|]. intros ->. congruence.
      * intros [?|(k & y & Hk & Hy)]; [by right; left|].
        rewrite lookup_insert in Hk. case_decide as Hik.
        -- subst k. injection Hk as ->. by left.
        -- right; right. by exists k, y.
Qed.

Lemma concealNested_obj (m : gmap string JSON) :
  concealNested re (JObj m) = ((concealLoop re m).1, JObj (concealLoop re m).2).
Proof. reflexivity. Qed.

Lemma concealEntry_obj (k : string) (m : gmap string JSON) :
  concealEntry re k (JObj m) = ((concealLoop re m).1, JObj (concealLoop re m).2).
Proof. reflexivity. Qed.

Lemma concealLoop_lookup (m : gmap string JSON) (k : string) :
  (concealLoop re m).2 !! k = (λ x, (concealEntry re k x).2) <$> m !! k.
Proof.
  destruct (concealMap_fold false m m) as [Hmap _]; [done|].
  unfold concealLoop. rewrite Hmap. by destruct (m !! k).
Qed.

Lemma concealLoop_lookup_Some (m : gmap string JSON) (k : string) (x : JSON) :
  m !! k = Some x → (concealLoop re m).2 !! k = Some (concealEntry re k x).2.
Proof. intros Hk. by rewrite concealLoop_lookup, Hk. Qed.

Lemma concealLoop_flag (m : gmap string JSON) :
  (concealLoop re m).1 = true
  ↔ ∃ k x, m !! k = Some x ∧ (concealEntry re k x).1 = true.
Proof.
  destruct (concealMap_fold false m m) as [_ Hflag]; [done|].
  unfold concealLoop. rewrite Hflag. split; [|by right].
  by intros [?|?].
Qed.

Lemma bool_eq_iff (b c : bool) : (b = true ↔ c = true) → b = c.
Proof. destruct b, c; intuition congruence. Qed.

(** A round keeps the kind of the value it visits. *)
Lemma concealEntry_isString (k : string) (x : JSON) :
  isString (concealEntry re k x).2 = isString x.
Proof. destruct x; simpl; try done. by destruct (MatchString re k). Qed.

Lemma concealEntry_isObject (k : string) (x : JSON) :
  isObject (concealEntry re k x).2 = isObject x.
Proof. destruct x; simpl; try done. by destruct (MatchString re k). Qed.

(** When the flag stays down nothing was written. *)
Lemma concealNested_unchanged (v : JSON) :
  (concealNested re v).1 = false → (concealNested re v).2 = v.
Proof.
  induction v as [ | | | | |m IH] using JSON_ind; try done.
  rewrite concealNested_obj. simpl. intros Hflag. f_equal.
  apply map_eq. intros k. rewrite concealLoop_lookup.
  destruct (m !! k) as [x|] eqn:Hk; [simpl|done]. f_equal.
  assert ((concealEntry re k x).1 = false) as Hx.
  { apply not_true_is_false. intros Hx.
    apply not_true_iff_false in Hflag. apply Hflag.
    apply concealLoop_flag. by exists k, x. }
  specialize (IH k x Hk). simpl in IH.
  destruct x; simpl in *; try done; [|by apply IH].
  by destruct (MatchString re k).
Qed.

Lemma concealEntry_unchanged (k : string) (x : JSON) :
  (concealEntry re k x).1 = false → (concealEntry re k x).2 = x.
Proof.
  destruct x; simpl; try done.
  - by destruct (MatchString re k).
  - apply (concealNested_unchanged (JObj _)).
Qed.

(** A second pass finds what the first one left and reports the same. *)
Lemma concealNested_again (v : JSON) :
  concealNested re (concealNested re v).2 = concealNested re v.
Proof.
  induction v as [ | | | | |m IH] using JSON_ind; try done.
  assert (∀ k x, m !! k = Some x →
            concealEntry re k (concealEntry re k x).2 = concealEntry re k x)
    as Hentry.
  { intros k x Hk. specialize (IH k x Hk). simpl in IH.
    destruct x; simpl; try done.
    by destruct (MatchString re k) eqn:Hmatch; simpl; rewrite ?Hmatch. }
  rewrite (concealNested_obj m). cbn [snd]. rewrite concealNested_obj.
  assert ((concealLoop re (concealLoop re m).2).2 = (concealLoop re m).2) as Hmap.
  { apply map_eq. intros k. rewrite !concealLoop_lookup.
    destruct (m !! k) as [x|] eqn:Hk; [simpl|done].
    by rewrite Hentry. }
  rewrite Hmap. f_equal. apply bool_eq_iff.
  rewrite !concealLoop_flag. split.
  - intros (k & y & Hk & Hy). rewrite concealLoop_lookup in Hk.
    destruct (m !! k) as [x|] eqn:Hx; [|done].
    injection Hk as <-. rewrite Hentry in Hy by done. by exists k, x.
  - intros (k & x & Hk & Hx). exists k, (concealEntry re k x).2. split.
    + by rewrite concealLoop_lookup, Hk.
    + by rewrite Hentry.
Qed.

End ConcealLoop.

(** ** Header filter *)

Lemma isExist_elem_of (array : list string) (key : string) :
  isExist array key = true ↔ key ∈ array.
Proof.
  induction array as [|v array IH]; simpl.
  - split; [done|]. by intros ?%elem_of_nil.
  - rewrite elem_of_cons. destruct (String.eqb_spec v key) as [->|Hne].
    + split; auto.
    + rewrite IH. split; [by right|]. by intros [->|?].
Qed.

(** The store after the loop has run over the entries [order], which are
    entries of the caller's map with no key twice. *)
Lemma filterOutHeaders_loop_spec (filterKeys : list string)
    (order : list (string * list string)) (hdrs : http.Header) :
  NoDup order.*1 →
  let st := filterOutHeaders_loop filterKeys order (mkHeaderStore hdrs ∅) in
  headers st = hdrs
  ∧ ∀ k, newHeader st !! k
         = if isExist filterKeys k then None
           else list_to_map (M := gmap string (list string)) order !! k.
Proof.
  simpl. induction order as [|[k v] order IH]; simpl.
  - intros _. split; [done|]. intros k. rewrite lookup_empty.
    by destruct (isExist filterKeys k).
  - intros [Hk Hnd]%NoDup_cons. destruct (IH Hnd) as [IHh IHn]; clear IH.
    unfold filterOutHeaders_body at 1 2.
    destruct (isExist filterKeys k) eqn:Hex; simpl.
    + split; [done|]. intros k'. rewrite IHn.
      destruct (decide (k = k')) as [<-|Hne]; [by rewrite Hex|].
      by rewrite lookup_insert_ne.
    + split; [done|]. intros k'.
      destruct (decide (k = k')) as [<-|Hne].
      * by rewrite Hex, !lookup_insert_eq.
      * rewrite !lookup_insert_ne by done. apply IHn.
Qed.

Lemma filterOutHeaders_run_loop (hdrs : http.Header)
    (filterKeys : list string) :
  filterOutHeaders_run hdrs filterKeys
  = filterOutHeaders_loop filterKeys (map_to_list hdrs) (mkHeaderStore hdrs ∅).
Proof.
  unfold filterOutHeaders_run, filterOutHeaders_loop.
  apply map_fold_foldr.
Qed.

(** C5. [filterOutHeaders] returns a map that holds exactly the entries of
    the header map whose key, compared as it is stored (upper and lower
    case distinct), is not in the deny list; the map it was given is as it
    was when the loop ends; and this is so in whatever order the loop visits
    the entries.  A map with [Authorization: Bearer xyz] and [X-Trace: 1],
    filtered with the deny list for requests, is left with [X-Trace: 1]. *)
Theorem filterOutHeaders_exact :
  (∀ (hdrs : http.Header) (filterKeys : list string),
     (∀ k, filterOutHeaders hdrs filterKeys !! k
           = if bool_decide (k ∈ filterKeys) then None else hdrs !! k)
     ∧ headers (filterOutHeaders_run hdrs filterKeys) = hdrs
     ∧ (∀ order, order ≡ₚ map_to_list hdrs →
          filterOutHeaders_loop filterKeys order (mkHeaderStore hdrs ∅)
          = filterOutHeaders_run hdrs filterKeys))
  ∧ filterOutHeaders
      (<["Authorization" := ["Bearer xyz"]]> (<["X-Trace" := ["1"]]> ∅))
      sensitiveRequestHeader
    = <["X-Trace" := ["1"]]> ∅
  ∧ filterOutHeaders (<["authorization" := ["Bearer xyz"]]> ∅)
      sensitiveRequestHeader
    = <["authorization" := ["Bearer xyz"]]> ∅.
Proof.
  split; [|split; reflexivity].
  intros hdrs filterKeys.
  assert (∀ order, order ≡ₚ map_to_list hdrs →
            let st :=
              filterOutHeaders_loop filterKeys order (mkHeaderStore hdrs ∅) in
            headers st = hdrs
            ∧ ∀ k, newHeader st !! k
                   = if bool_decide (k ∈ filterKeys) then None
                     else hdrs !! k) as Hloop.
  { intros order Hperm.
    assert (NoDup order.*1) as Hnd.
    { rewrite Hperm. apply NoDup_fst_map_to_list. }
    destruct (filterOutHeaders_loop_spec filterKeys order hdrs Hnd)
      as [Hh Hn].
    split; [done|]. intros k. rewrite Hn.
    rewrite (list_to_map_proper order (map_to_list hdrs)) by done.
    rewrite list_to_map_to_list.
    destruct (isExist filterKeys k) eqn:Hex.
    - apply isExist_elem_of in Hex. by rewrite bool_decide_eq_true_2.
    - rewrite bool_decide_eq_false_2; [done|].
      rewrite <-isExist_elem_of. congruence. }
  destruct (Hloop (map_to_list hdrs)) as [Hh Hn]; [done|].
  unfold filterOutHeaders. rewrite filterOutHeaders_run_loop.
  repeat split; [done..|].
  intros order Hperm. destruct (Hloop order Hperm) as [Hh' Hn'].
  destruct (filterOutHeaders_loop _ order _) as [h1 n1].
  destruct (filterOutHeaders_loop _ (map_to_list hdrs) _) as [h2 n2].
  simpl in *. f_equal; [congruence|].
  apply map_eq. intros k. by rewrite Hn, Hn'.
Qed.

(** ** Body capture *)

(** C6, as the code has it.  When the body stream of a request reads to
    its end, the request that [readBodyWithoutLosingContent] leaves holds a
    stream that reads to the same bytes, for every method; the call returns
    those bytes when the method is PUT or POST, and for any other method it
    returns no bytes and leaves the request as it found it. *)
Theorem readBodyWithoutLosingContent_preserves (req : http.Request)
    (b : bytes) :
  (ioutil_ReadAll (http.Body req)).1 = Ok b →
  (ioutil_ReadAll (http.Body (readBodyWithoutLosingContent req).2)).1 = Ok b
  ∧ (bodyMethod (http.Method req) = true →
       (readBodyWithoutLosingContent req).1 = Ok b)
  ∧ (bodyMethod (http.Method req) = false →
       readBodyWithoutLosingContent req = (Ok EmptyString, req)).
Proof.
  intros Hread. unfold readBodyWithoutLosingContent.
  destruct (bodyMethod (http.Method req)); simpl.
  - destruct (ioutil_ReadAll (http.Body req)) as [[b'|e] drained];
      simpl in *; [|done].
    injection Hread as ->. by repeat split.
  - by repeat split.
Qed.

Lemma readBodyWithoutLosingContent_preserves_witness :
  (ioutil_ReadAll (http.Body postWithBody)).1 = Ok "x"
  ∧ (ioutil_ReadAll
       (http.Body (readBodyWithoutLosingContent postWithBody).2)).1 = Ok "x"
  ∧ (readBodyWithoutLosingContent postWithBody).1 = Ok "x".
Proof.
  split; [reflexivity|].
  destruct (readBodyWithoutLosingContent_preserves postWithBody "x")
    as (Hstream & Hput & _); [reflexivity|].
  split; [exact Hstream|]. apply Hput. reflexivity.
Defined.

(** C6, as it is stated, fails for a method that carries no body by
    convention: the stream of this GET request reads to [x], and the call
    returns no bytes. *)
Lemma readBodyWithoutLosingContent_get_returns_nothing :
  (ioutil_ReadAll (http.Body getWithBody)).1 = Ok "x"
  ∧ (readBodyWithoutLosingContent getWithBody).1 = Ok EmptyString
  ∧ (readBodyWithoutLosingContent getWithBody).1 ≠ Ok "x".
Proof. repeat split; [reflexivity..|]. discriminate. Qed.

(** ** Key-pattern redaction *)

Section KeyPattern.

Variable re : Regexp.

(** What the loop leaves at the end of a chain of object keys. *)
Lemma concealLoop_lookupPath (p : list string) (k : string) (x : JSON) :
  ∀ m : gmap string JSON,
    lookupPath (p ++ [k]) (JObj m) = Some x →
    lookupPath (p ++ [k]) (JObj (concealLoop re m).2)
    = Some (concealEntry re k x).2.
Proof.
  induction p as [|k' p IH]; intros m; simpl.
  - rewrite concealLoop_lookup. destruct (m !! k) as [y|]; simpl; [|done].
    by intros [= ->].
  - rewrite concealLoop_lookup.
    destruct (m !! k') as [y|]; simpl; [|done].
    destruct y as [ | | | | |n];
      try (destruct p; simpl; discriminate).
    intros Hx. rewrite concealEntry_obj. by apply IH.
Qed.

Lemma concealLoop_lookupPath_None (p : list string) :
  ∀ m : gmap string JSON,
    lookupPath p (JObj m) = None →
    lookupPath p (JObj (concealLoop re m).2) = None.
Proof.
  induction p as [|k p IH]; intros m; simpl; [done|].
  rewrite concealLoop_lookup. destruct (m !! k) as [y|]; simpl; [|done].
  destruct p as [|k2 p]; [done|].
  destruct y as [ | | | s | |n]; try done.
  - simpl. by destruct (MatchString re k).
  - intros Hx. rewrite concealEntry_obj. by apply IH.
Qed.

End KeyPattern.

(** ** The two passes together *)

Section Passes.

Variable a : auditLog.

Let re : Regexp := keysToConcealRegex a.

Lemma concealLoop_again (m : gmap string JSON) :
  concealLoop re (concealLoop re m).2 = concealLoop re m.
Proof.
  pose proof (concealNested_again re (JObj m)) as Hagain.
  rewrite (concealNested_obj re m) in Hagain. cbn [snd] in Hagain.
  rewrite concealNested_obj in Hagain.
  injection Hagain as Hflag Hmap.
  destruct (concealLoop re (concealLoop re m).2) as [c1 m1].
  destruct (concealLoop re m) as [c2 m2]. simpl in *. congruence.
Qed.

Lemma concealLoop_unchanged (m : gmap string JSON) :
  (concealLoop re m).1 = false → (concealLoop re m).2 = m.
Proof.
  intros Hflag.
  pose proof (concealNested_unchanged re (JObj m)) as Hsame.
  rewrite concealNested_obj in Hsame. simpl in Hsame.
  specialize (Hsame Hflag). by injection Hsame.
Qed.

Lemma concealLoop_asMap (m : gmap string JSON) (k : string) :
  asMap ((concealLoop re m).2 !! k)
  = (λ d, (concealLoop re d).2) <$> asMap (m !! k).
Proof.
  rewrite concealLoop_lookup. destruct (m !! k) as [x|]; [|done].
  destruct x; simpl; try done. by destruct (MatchString re k).
Qed.

(** The loop finds nothing to alter in a map whose values are all the
    marker. *)
Lemma concealLoop_all_redacted (d : gmap string JSON) :
  (concealLoop re (redactAll d)).2 = redactAll d.
Proof.
  apply map_eq. intros k. unfold redactAll.
  rewrite concealLoop_lookup, lookup_fmap.
  destruct (d !! k); simpl; [|done]. by destruct (MatchString re k).
Qed.

Lemma concealTree_eq (requestURI : string) (m : gmap string JSON) :
  concealTree a requestURI m
  = ((concealMap a (concealSecretData requestURI m).2).1
     || (concealSecretData requestURI m).1,
     (concealMap a (concealSecretData requestURI m).2).2).
Proof.
  unfold concealTree. destruct (concealSecretData requestURI m) as [c m1].
  simpl. by destruct (concealMap a m1).
Qed.

Lemma concealSecretData_unchanged (requestURI : string)
    (m : gmap string JSON) :
  (concealSecretData requestURI m).1 = false →
  (concealSecretData requestURI m).2 = m.
Proof.
  unfold concealSecretData.
  destruct (strings_Contains requestURI "secrets"); [|done].
  destruct (asMap (m !! "data")); [done|].
  by destruct (asMap (m !! "stringData")).
Qed.

Lemma concealSecretData_data (requestURI : string) (m d : gmap string JSON) :
  strings_Contains requestURI "secrets" = true →
  asMap (m !! "data") = Some d →
  concealSecretData requestURI m
  = (true, <["data" := JObj (redactAll d)]> m).
Proof. intros Huri Hdata. unfold concealSecretData. by rewrite Huri, Hdata. Qed.

Lemma concealSecretData_stringData (requestURI : string)
    (m d : gmap string JSON) :
  strings_Contains requestURI "secrets" = true →
  asMap (m !! "data") = None →
  asMap (m !! "stringData") = Some d →
  concealSecretData requestURI m
  = (true, <["stringData" := JObj (redactAll d)]> m).
Proof.
  intros Huri Hdata Hstring. unfold concealSecretData.
  by rewrite Huri, Hdata, Hstring.
Qed.

Lemma concealSecretData_neither (requestURI : string) (m : gmap string JSON) :
  asMap (m !! "data") = None →
  asMap (m !! "stringData") = None →
  concealSecretData requestURI m = (false, m).
Proof.
  intros Hdata Hstring. unfold concealSecretData.
  rewrite Hdata, Hstring. by destruct (strings_Contains _ _).
Qed.

Lemma concealSecretData_elsewhere (requestURI : string)
    (m : gmap string JSON) :
  strings_Contains requestURI "secrets" = false →
  concealSecretData requestURI m = (false, m).
Proof. intros Huri. unfold concealSecretData. by rewrite Huri. Qed.

Lemma asMap_Some (v : option JSON) (d : gmap string JSON) :
  asMap v = Some d ↔ v = Some (JObj d).
Proof.
  destruct v as [[ | | | | |n]|]; simpl; split; try done.
  - by intros [= ->].
  - by intros [= ->].
Qed.

(** The Secret pass, run on the tree that both passes have left, raises the
    same flag and writes what is already there. *)
Lemma concealSecretData_after (requestURI : string) (m : gmap string JSON) :
  concealSecretData requestURI
    (concealLoop re (concealSecretData requestURI m).2).2
  = ((concealSecretData requestURI m).1,
     (concealLoop re (concealSecretData requestURI m).2).2).
Proof.
  destruct (strings_Contains requestURI "secrets") eqn:Huri;
    [|by rewrite !concealSecretData_elsewhere].
  assert (∀ d, redactAll (redactAll d) = redactAll d) as HRR.
  { intros d. unfold redactAll. by rewrite <-map_fmap_compose. }
  destruct (asMap (m !! "data")) as [d|] eqn:Hdata.
  - rewrite (concealSecretData_data _ m d) by done. cbn [fst snd].
    assert ((concealLoop re (<["data" := JObj (redactAll d)]> m)).2 !! "data"
            = Some (JObj (redactAll d))) as Hleft.
    { rewrite (concealLoop_lookup_Some re _ _ (JObj (redactAll d)))
        by apply lookup_insert_eq.
      rewrite concealEntry_obj.
      by rewrite concealLoop_all_redacted. }
    rewrite (concealSecretData_data _ _ (redactAll d))
      by first [done | by rewrite Hleft].
    rewrite HRR. by rewrite insert_id.
  - destruct (asMap (m !! "stringData")) as [d|] eqn:Hstring.
    + rewrite (concealSecretData_stringData _ m d) by done. cbn [fst snd].
        assert ((concealLoop re (<["stringData" := JObj (redactAll d)]> m)).2
                !! "stringData"
              = Some (JObj (redactAll d))) as Hleft.
      { rewrite (concealLoop_lookup_Some re _ _ (JObj (redactAll d)))
          by apply lookup_insert_eq.
        rewrite concealEntry_obj.
        by rewrite concealLoop_all_redacted. }
      rewrite (concealSecretData_stringData _ _ (redactAll d)).
      * rewrite HRR. by rewrite insert_id.
      * done.
      * by rewrite concealLoop_asMap, lookup_insert_ne, Hdata.
      * by rewrite Hleft.
    + rewrite (concealSecretData_neither _ m) by done. cbn [fst snd].
      rewrite concealSecretData_neither; [done|..];
        by rewrite concealLoop_asMap, ?Hdata, ?Hstring.
Qed.

Lemma concealTree_again (requestURI : string) (m : gmap string JSON) :
  concealTree a requestURI (concealTree a requestURI m).2
  = concealTree a requestURI m.
Proof.
  rewrite (concealTree_eq requestURI m). cbn [snd].
  rewrite concealTree_eq. unfold concealMap. fold re.
  rewrite concealSecretData_after. cbn [fst snd].
  by rewrite concealLoop_again.
Qed.

Lemma concealTree_unchanged (requestURI : string) (m : gmap string JSON) :
  (concealTree a requestURI m).1 = false → (concealTree a requestURI m).2 = m.
Proof.
  rewrite concealTree_eq. cbn [fst snd]. intros [Hkey Hsecret]%orb_false_iff.
  unfold concealMap in *. fold re in Hkey |- *.
  rewrite concealLoop_unchanged by done.
  by apply concealSecretData_unchanged.
Qed.

Lemma concealSensitiveData_tree `{EncodingJSON} (requestURI : string)
    (body : bytes) (m : gmap string JSON) :
  json_Unmarshal body = Ok m →
  concealSensitiveData a requestURI body
  = if (concealTree a requestURI m).1
    then match json_Marshal (concealTree a requestURI m).2 with
         | Ok newBody => newBody
         | Err _ => body
         end
    else body.
Proof.
  intros Hm. unfold concealSensitiveData, concealTree. rewrite Hm.
  destruct (concealSecretData requestURI m) as [c m1].
  destruct (concealMap a m1) as [c' m2]. simpl.
  by destruct c, c'.
Qed.

Lemma concealSensitiveData_refused `{EncodingJSON} (requestURI : string)
    (body : bytes) (e : error) :
  json_Unmarshal body = Err e →
  concealSensitiveData a requestURI body = body.
Proof. intros Herr. unfold concealSensitiveData. by rewrite Herr. Qed.

End Passes.

(** The result of the redaction decodes to the tree that the two passes
    leave, when the encoder takes that tree and the decoder reads back what
    the encoder wrote. *)
Lemma concealSensitiveData_output `{EncodingJSON} (a : auditLog)
    (requestURI : string) (body : bytes) (m : gmap string JSON) :
  json_Unmarshal body = Ok m →
  (∀ e, json_Marshal (concealTree a requestURI m).2 ≠ Err e) →
  roundTrips (concealTree a requestURI m).2 →
  json_Unmarshal (concealSensitiveData a requestURI body)
  = Ok (concealTree a requestURI m).2.
Proof.
  intros Hm Hencodes Hround.
  rewrite (concealSensitiveData_tree a requestURI body m Hm).
  destruct (concealTree a requestURI m).1 eqn:Hflag.
  - destruct (json_Marshal _) as [newBody|e] eqn:Hnew.
    + by apply Hround.
    + by destruct (Hencodes e).
  - by rewrite concealTree_unchanged.
Qed.

(** A string of the decoded body, after the Secret pass: it is where it
    was, or it stood inside a value of [data] or [stringData], which now is
    the marker. *)
Lemma concealSecretData_lookupPath (requestURI : string)
    (m : gmap string JSON) (p : list string) (k s : string) :
  lookupPath (p ++ [k]) (JObj m) = Some (JStr s) →
  lookupPath (p ++ [k]) (JObj (concealSecretData requestURI m).2)
  = Some (JStr s)
  ∨ (strings_Contains requestURI "secrets" = true
     ∧ ∃ k0 k1 r,
         (p ++ [k] = ([k0] ++ [k1]) ++ r)%list
         ∧ lookupPath ([k0] ++ [k1])
             (JObj (concealSecretData requestURI m).2)
           = Some (JStr redacted)).
Proof.
  intros Hpath.
  destruct (strings_Contains requestURI "secrets") eqn:Huri;
    [|left; by rewrite concealSecretData_elsewhere].
  assert (∀ dk d, m !! dk = Some (JObj d) →
            lookupPath (p ++ [k]) (JObj (<[dk := JObj (redactAll d)]> m))
            = Some (JStr s)
            ∨ ∃ k0 k1 r,
                (p ++ [k] = ([k0] ++ [k1]) ++ r)%list
                ∧ lookupPath ([k0] ++ [k1])
                    (JObj (<[dk := JObj (redactAll d)]> m))
                  = Some (JStr redacted)) as Hwritten.
  { intros dk d Hdk. destruct p as [|k0 p]; simpl in Hpath |- *.
    - destruct (decide (dk = k)) as [->|Hne].
      + by rewrite Hdk in Hpath.
      + left. by rewrite lookup_insert_ne.
    - destruct (decide (dk = k0)) as [->|Hne].
      + right. rewrite Hdk in Hpath. simpl in Hpath.
        destruct p as [|k1 p]; simpl in Hpath.
        * exists k0, k, []. split; [done|].
          rewrite lookup_insert_eq. simpl. unfold redactAll.
          rewrite lookup_fmap. by destruct (d !! k).
        * exists k0, k1, (p ++ [k])%list. split; [done|].
          rewrite lookup_insert_eq. simpl. unfold redactAll.
          rewrite lookup_fmap. by destruct (d !! k1).
      + left. by rewrite lookup_insert_ne. }
  destruct (asMap (m !! "data")) as [d|] eqn:Hdata.
  - rewrite (concealSecretData_data _ m d) by done. cbn [snd].
    destruct (Hwritten "data" d) as [?|?]; [by apply asMap_Some|by left|].
    by right.
  - destruct (asMap (m !! "stringData")) as [d|] eqn:Hstring.
    + rewrite (concealSecretData_stringData _ m d) by done. cbn [snd].
      destruct (Hwritten "stringData" d) as [?|?];
        [by apply asMap_Some|by left|].
      by right.
    + left. by rewrite concealSecretData_neither.
Qed.

(** C1, as the code has it.  For a body that decodes to [m], when the
    encoder takes the redacted tree and the decoder reads back what it
    wrote, the result of the redaction decodes to a tree [out] in which:
    every plain string of the body under a matching key, reached through
    objects alone, is replaced by ["[redacted]"], at its place or, on the
    URI of a Secret, at the value of [data] or [stringData] that holds it;
    and, with [m1] the tree that the key-pattern pass receives (the body's
    own tree when the URI holds no [secrets]), a string of [m1] under a
    matching key is the marker in [out], a value of [m1] that is no object
    and no string under a matching key is in [out] what it was (a number,
    a boolean, a null, an array with all it contains), an object of [m1] is
    in [out] the object that the pass makes of it, and [out] has a value
    exactly where [m1] has one. *)
Theorem concealSensitiveData_redacts_matching_strings `{EncodingJSON}
    (a : auditLog) (requestURI : string) (body : bytes)
    (m : gmap string JSON) :
  json_Unmarshal body = Ok m →
  (∀ e, json_Marshal (concealTree a requestURI m).2 ≠ Err e) →
  roundTrips (concealTree a requestURI m).2 →
  let m1 := (concealSecretData requestURI m).2 in
  let out := (concealTree a requestURI m).2 in
  json_Unmarshal (concealSensitiveData a requestURI body) = Ok out
  ∧ (strings_Contains requestURI "secrets" = false → m1 = m)
  ∧ (∀ p k s,
       lookupPath (p ++ [k]) (JObj m) = Some (JStr s) →
       MatchString (keysToConcealRegex a) k = true →
       ∃ q r, q ≠ [] ∧ (p ++ [k] = q ++ r)%list
              ∧ lookupPath q (JObj out) = Some (JStr redacted)
              ∧ (strings_Contains requestURI "secrets" = false → r = []))
  ∧ (∀ p k s,
       lookupPath (p ++ [k]) (JObj m1) = Some (JStr s) →
       MatchString (keysToConcealRegex a) k = true →
       lookupPath (p ++ [k]) (JObj out) = Some (JStr redacted))
  ∧ (∀ p k x,
       lookupPath (p ++ [k]) (JObj m1) = Some x →
       isObject x = false →
       isString x && MatchString (keysToConcealRegex a) k = false →
       lookupPath (p ++ [k]) (JObj out) = Some x)
  ∧ (∀ p k n,
       lookupPath (p ++ [k]) (JObj m1) = Some (JObj n) →
       lookupPath (p ++ [k]) (JObj out) = Some (JObj (concealMap a n).2))
  ∧ (∀ p, lookupPath p (JObj m1) = None ↔ lookupPath p (JObj out) = None).
Proof.
  intros Hm Hencodes Hround. simpl.
  split; [by apply concealSensitiveData_output|].
  rewrite concealTree_eq. cbn [snd]. unfold concealMap.
  set (re := keysToConcealRegex a).
  set (m1 := (concealSecretData requestURI m).2).
  split; [|split; [|split; [|split; [|split]]]].
  - intros Huri. unfold m1. by rewrite concealSecretData_elsewhere.
  - intros p k s Hs Hmatch.
    destruct (concealSecretData_lookupPath requestURI m p k s Hs)
      as [Hkept|(Huri & k0 & k1 & r & Hsplit & Hmarker)].
    + exists (p ++ [k])%list, []. split; [by destruct p|].
      split; [by rewrite app_nil_r|]. split; [|done].
      rewrite (concealLoop_lookupPath re p k (JStr s) m1 Hkept). simpl.
      by rewrite Hmatch.
    + exists ([k0] ++ [k1])%list, r. split; [done|]. split; [done|].
      split; [|by rewrite Huri].
      rewrite (concealLoop_lookupPath re [k0] k1 (JStr redacted) m1 Hmarker).
      simpl. by destruct (MatchString re k1).
  - intros p k s Hs Hmatch.
    rewrite (concealLoop_lookupPath re p k (JStr s) m1 Hs). simpl.
    by rewrite Hmatch.
  - intros p k x Hx Hobj Hstr.
    rewrite (concealLoop_lookupPath re p k x m1 Hx). f_equal.
    destruct x; simpl in *; try done. by rewrite Hstr.
  - intros p k n Hn.
    by rewrite (concealLoop_lookupPath re p k (JObj n) m1 Hn),
      concealEntry_obj.
  - intros p. split; [apply concealLoop_lookupPath_None|].
    intros Hnone. destruct p as [|k p _] using rev_ind; [done|].
    destruct (lookupPath (p ++ [k]) (JObj m1)) as [x|] eqn:Hx; [|done].
    by rewrite (concealLoop_lookupPath re p k x m1 Hx) in Hnone.
Qed.

Lemma concealSensitiveData_redacts_matching_strings_witness :
  json_Unmarshal (EncodingJSON := RefJSON.codec) specBody = Ok specTree
  ∧ json_Unmarshal (EncodingJSON := RefJSON.codec)
      (concealSensitiveData (H := RefJSON.codec)
         (session 3 usersURI specBody) usersURI specBody)
    = Ok (concealTree (session 3 usersURI specBody) usersURI specTree).2
  ∧ lookupPath (["spec"] ++ ["password"]) (JObj specTree)
    = Some (JStr "hunter2")
  ∧ MatchString sensitiveKeys "password" = true
  ∧ lookupPath (["spec"] ++ ["password"])
      (JObj (concealTree (session 3 usersURI specBody) usersURI specTree).2)
    = Some (JStr redacted)
  ∧ lookupPath (["spec"] ++ ["replicas"])
      (JObj (concealTree (session 3 usersURI specBody) usersURI specTree).2)
    = Some (JNum 4613937818241073152).
Proof.
  split; [vm_compute; reflexivity|].
  assert (json_Marshal (EncodingJSON := RefJSON.codec)
            (concealTree (session 3 usersURI specBody) usersURI specTree).2
          = Ok ("{" ++ quoted "spec" ++ ":{" ++ quoted "password" ++ ":"
                ++ quoted redacted ++ "," ++ quoted "replicas" ++ ":3}}"))
    as Henc by (vm_compute; reflexivity).
  destruct (concealSensitiveData_redacts_matching_strings
              (H := RefJSON.codec) (session 3 usersURI specBody) usersURI
              specBody specTree)
    as (Hout & _ & _ & Hredacted & Hkept & _).
  - vm_compute. reflexivity.
  - intros e He. rewrite Henc in He. discriminate.
  - intros b Hb. rewrite Henc in Hb. injection Hb as <-.
    vm_compute. reflexivity.
  - split; [exact Hout|]. split; [reflexivity|]. split; [reflexivity|].
    split.
    + apply (Hredacted ["spec"] "password" "hunter2"); reflexivity.
    + apply (Hkept ["spec"] "replicas"); reflexivity.
Defined.

(** C1, as it is stated, fails where a matching key holds something else
    than a string and where it stands inside an array: the body
    [{"users":[{"password":"hunter2"}],"token":12345}] decodes to
    [usersTree], both keys match the pattern, and [concealMap] reports no
    change, leaves the number under [token] and the password inside the
    array, so that the redaction returns the body as it came. *)
Lemma concealMap_skips_arrays_and_numbers :
  json_Unmarshal (EncodingJSON := RefJSON.codec) usersBody = Ok usersTree
  ∧ MatchString sensitiveKeys "token" = true
  ∧ MatchString sensitiveKeys "password" = true
  ∧ concealMap (session 3 usersURI usersBody) usersTree = (false, usersTree)
  ∧ lookupPath ["token"]
      (JObj (concealMap (session 3 usersURI usersBody) usersTree).2)
    ≠ Some (JStr redacted)
  ∧ (concealMap (session 3 usersURI usersBody) usersTree).2 !! "users"
    = Some (JArr [JObj (<["password" := JStr "hunter2"]> ∅)])
  ∧ concealSensitiveData (H := RefJSON.codec)
      (session 3 usersURI usersBody) usersURI usersBody
    = usersBody.
Proof.
  split; [vm_compute; reflexivity|].
  split; [reflexivity|]. split; [reflexivity|].
  split; [vm_compute; reflexivity|].
  split; [vm_compute; discriminate|].
  split; vm_compute; reflexivity.
Qed.

(** ** Redaction of Secrets *)

(** The Secret pass on the tree, case by case, and what both passes leave
    under the key it wrote. *)
Lemma concealSecretData_cases (a : auditLog) (requestURI : string)
    (m : gmap string JSON) :
  (strings_Contains requestURI "secrets" = true →
     (∀ d, m !! "data" = Some (JObj d) →
        concealSecretData requestURI m
        = (true, <["data" := JObj (redactAll d)]> m)
        ∧ (concealTree a requestURI m).2 !! "data" = Some (JObj (redactAll d))
        ∧ ∀ k, redactAll d !! k = (λ _, JStr redacted) <$> d !! k)
     ∧ (∀ d, asMap (m !! "data") = None →
          m !! "stringData" = Some (JObj d) →
          concealSecretData requestURI m
          = (true, <["stringData" := JObj (redactAll d)]> m)
          ∧ (concealTree a requestURI m).2 !! "stringData"
            = Some (JObj (redactAll d))
          ∧ ∀ k, redactAll d !! k = (λ _, JStr redacted) <$> d !! k)
     ∧ (asMap (m !! "data") = None →
        asMap (m !! "stringData") = None →
        concealSecretData requestURI m = (false, m)))
  ∧ (strings_Contains requestURI "secrets" = false →
     concealSecretData requestURI m = (false, m)).
Proof.
  assert (∀ key d,
            concealSecretData requestURI m
            = (true, <[key := JObj (redactAll d)]> m) →
            (concealTree a requestURI m).2 !! key
            = Some (JObj (redactAll d))) as Hboth.
  { intros key d Hsecret. rewrite concealTree_eq, Hsecret. cbn [snd].
    unfold concealMap.
    rewrite (concealLoop_lookup_Some _ _ _ (JObj (redactAll d)))
      by apply lookup_insert_eq.
    by rewrite concealEntry_obj, concealLoop_all_redacted. }
  split; [|apply concealSecretData_elsewhere].
  intros Huri. repeat split.
  - by apply concealSecretData_data; [|apply asMap_Some].
  - by apply Hboth, concealSecretData_data; [|apply asMap_Some].
  - intros k. apply lookup_fmap.
  - by apply concealSecretData_stringData; [| |apply asMap_Some].
  - by apply Hboth, concealSecretData_stringData; [| |apply asMap_Some].
  - intros k. apply lookup_fmap.
  - by apply concealSecretData_neither.
Qed.

(** The redaction when the Secret pass has nothing to do: it is the
    key-pattern pass alone that decides between the body as it came and the
    encoding of the tree. *)
Lemma concealSensitiveData_key_pass_only `{EncodingJSON} (a : auditLog)
    (requestURI : string) (body : bytes) (m : gmap string JSON) :
  json_Unmarshal body = Ok m →
  concealSecretData requestURI m = (false, m) →
  concealSensitiveData a requestURI body
  = if (concealMap a m).1
    then match json_Marshal (concealMap a m).2 with
         | Ok newBody => newBody
         | Err _ => body
         end
    else body.
Proof.
  intros Hm Hsecret.
  rewrite (concealSensitiveData_tree a requestURI body m Hm).
  rewrite concealTree_eq, Hsecret. cbn [fst snd].
  by rewrite orb_false_r.
Qed.

(** C2.  For a body that decodes to [m], when the encoder takes the
    redacted tree and the decoder reads back what it wrote.  On a URI that
    contains [secrets]: if [data] holds an object, the result of the
    redaction decodes to a tree that holds under [data] that object with
    every value replaced by the marker; if [data] is absent or holds no
    object and [stringData] holds one, the same stands under
    [stringData]; if neither holds an object, the Secret pass changes
    nothing and the result is what the key-pattern pass alone gives.  On a
    URI that does not contain [secrets] the Secret pass changes nothing,
    whatever the body, and the result is what the key-pattern pass alone
    gives. *)
Theorem concealSensitiveData_redacts_secret `{EncodingJSON} (a : auditLog)
    (requestURI : string) (body : bytes) (m : gmap string JSON) :
  json_Unmarshal body = Ok m →
  (∀ e, json_Marshal (concealTree a requestURI m).2 ≠ Err e) →
  roundTrips (concealTree a requestURI m).2 →
  let keyPassOnly :=
    if (concealMap a m).1
    then match json_Marshal (concealMap a m).2 with
         | Ok newBody => newBody
         | Err _ => body
         end
    else body in
  (strings_Contains requestURI "secrets" = true →
     (∀ d, m !! "data" = Some (JObj d) →
        concealSecretData requestURI m
        = (true, <["data" := JObj (redactAll d)]> m)
        ∧ (∃ out,
             json_Unmarshal (concealSensitiveData a requestURI body) = Ok out
             ∧ out !! "data" = Some (JObj (redactAll d)))
        ∧ ∀ k, redactAll d !! k = (λ _, JStr redacted) <$> d !! k)
     ∧ (∀ d, asMap (m !! "data") = None →
          m !! "stringData" = Some (JObj d) →
          concealSecretData requestURI m
          = (true, <["stringData" := JObj (redactAll d)]> m)
          ∧ (∃ out,
               json_Unmarshal (concealSensitiveData a requestURI body)
               = Ok out
               ∧ out !! "stringData" = Some (JObj (redactAll d)))
          ∧ ∀ k, redactAll d !! k = (λ _, JStr redacted) <$> d !! k)
     ∧ (asMap (m !! "data") = None →
        asMap (m !! "stringData") = None →
        concealSecretData requestURI m = (false, m)
        ∧ concealSensitiveData a requestURI body = keyPassOnly))
  ∧ (strings_Contains requestURI "secrets" = false →
     concealSecretData requestURI m = (false, m)
     ∧ concealSensitiveData a requestURI body = keyPassOnly).
Proof.
  intros Hm Hencodes Hround. simpl.
  pose proof (concealSensitiveData_output a requestURI body m Hm Hencodes
                Hround) as Hout.
  destruct (concealSecretData_cases a requestURI m) as [Hon Hoff].
  split.
  - intros Huri. destruct (Hon Huri) as (Hdata & Hstring & Hneither).
    split; [|split].
    + intros d Hd. destruct (Hdata d Hd) as (Hsecret & Htree & Hall).
      split; [done|]. split; [|done]. eauto.
    + intros d Hnone Hd.
      destruct (Hstring d Hnone Hd) as (Hsecret & Htree & Hall).
      split; [done|]. split; [|done]. eauto.
    + intros Hnone1 Hnone2. pose proof (Hneither Hnone1 Hnone2) as Hsecret.
      split; [done|]. by apply concealSensitiveData_key_pass_only.
  - intros Huri. pose proof (Hoff Huri) as Hsecret.
    split; [done|]. by apply concealSensitiveData_key_pass_only.
Qed.

Lemma concealSensitiveData_redacts_secret_witness :
  json_Unmarshal (EncodingJSON := RefJSON.codec) secretBody = Ok secretTree
  ∧ strings_Contains secretsURI "secrets" = true
  ∧ secretTree !! "data" = Some (JObj (<["tls.key" := JStr "c2VjcmV0"]> ∅))
  ∧ ∃ out,
      json_Unmarshal (EncodingJSON := RefJSON.codec)
        (concealSensitiveData (H := RefJSON.codec)
           (session 3 secretsURI secretBody) secretsURI secretBody)
      = Ok out
      ∧ out !! "data"
        = Some (JObj (redactAll (<["tls.key" := JStr "c2VjcmV0"]> ∅))).
Proof.
  split; [vm_compute; reflexivity|]. split; [reflexivity|].
  split; [reflexivity|].
  assert (json_Marshal (EncodingJSON := RefJSON.codec)
            (concealTree (session 3 secretsURI secretBody) secretsURI
               secretTree).2
          = Ok ("{" ++ quoted "data" ++ ":{" ++ quoted "tls.key" ++ ":"
                ++ quoted redacted ++ "}," ++ quoted "stringData" ++ ":{"
                ++ quoted "note" ++ ":" ++ quoted "plain" ++ "}}")) as Henc
    by (vm_compute; reflexivity).
  destruct (concealSensitiveData_redacts_secret (H := RefJSON.codec)
              (session 3 secretsURI secretBody) secretsURI secretBody
              secretTree) as [Hon _].
  - vm_compute. reflexivity.
  - intros e He. rewrite Henc in He. discriminate.
  - intros b Hb. rewrite Henc in Hb. injection Hb as <-.
    vm_compute. reflexivity.
  - destruct (Hon eq_refl) as (Hdata & _).
    destruct (Hdata (<["tls.key" := JStr "c2VjcmV0"]> ∅) eq_refl)
      as (_ & Hout & _).
    exact Hout.
Defined.

(** ** The redaction as a whole *)

(** C3.  A body that [json.Unmarshal] refuses comes back as it went in,
    byte for byte; the function has no error to return. *)
Theorem concealSensitiveData_unparsed `{EncodingJSON} (a : auditLog)
    (requestURI : string) (body : bytes) (e : error) :
  json_Unmarshal body = Err e →
  concealSensitiveData a requestURI body = body.
Proof. apply concealSensitiveData_refused. Qed.

Lemma concealSensitiveData_unparsed_witness :
  json_Unmarshal (EncodingJSON := RefJSON.codec) formBody
  = Err "invalid character"
  ∧ concealSensitiveData (H := RefJSON.codec)
      (session 3 secretsURI formBody) secretsURI formBody
    = formBody.
Proof.
  split; [reflexivity|].
  apply (concealSensitiveData_unparsed (H := RefJSON.codec)
           (session 3 secretsURI formBody) secretsURI formBody
           "invalid character").
  reflexivity.
Defined.

(** C8, as the code has it.  For a body that decodes to [m]: when neither
    pass raises its flag, the tree is as it was decoded and the body comes
    back byte for byte; when a pass raises its flag, the result is the
    encoding of the whole tree as the passes left it (the body itself if
    the encoder fails); and a pass that altered the tree has raised its
    flag.  The flag is the disjunction of the two passes' flags, each of
    which is raised by the write of a marker, not by a difference. *)
Theorem concealSensitiveData_verbatim_or_marshal `{EncodingJSON}
    (a : auditLog) (requestURI : string) (body : bytes)
    (m : gmap string JSON) :
  json_Unmarshal body = Ok m →
  let t := concealTree a requestURI m in
  t.1 = (concealMap a (concealSecretData requestURI m).2).1
        || (concealSecretData requestURI m).1
  ∧ (t.1 = false → t.2 = m ∧ concealSensitiveData a requestURI body = body)
  ∧ (t.1 = true →
     concealSensitiveData a requestURI body
     = match json_Marshal t.2 with
       | Ok newBody => newBody
       | Err _ => body
       end)
  ∧ (t.2 ≠ m → t.1 = true).
Proof.
  intros Hm. simpl.
  split; [by rewrite concealTree_eq|].
  split; [|split].
  - intros Hflag. split; [by apply concealTree_unchanged|].
    rewrite (concealSensitiveData_tree a requestURI body m Hm).
    by rewrite Hflag.
  - intros Hflag. rewrite (concealSensitiveData_tree a requestURI body m Hm).
    by rewrite Hflag.
  - intros Hdiff. apply not_false_is_true. intros Hflag.
    by apply Hdiff, concealTree_unchanged.
Qed.

Lemma concealSensitiveData_verbatim_or_marshal_witness :
  json_Unmarshal (EncodingJSON := RefJSON.codec) specBody = Ok specTree
  ∧ (concealTree (session 3 usersURI specBody) usersURI specTree).1 = true
  ∧ concealSensitiveData (H := RefJSON.codec)
      (session 3 usersURI specBody) usersURI specBody
    = match json_Marshal (EncodingJSON := RefJSON.codec)
              (concealTree (session 3 usersURI specBody) usersURI specTree).2
      with
      | Ok newBody => newBody
      | Err _ => specBody
      end.
Proof.
  split; [vm_compute; reflexivity|]. split; [vm_compute; reflexivity|].
  apply (concealSensitiveData_verbatim_or_marshal (H := RefJSON.codec)
           (session 3 usersURI specBody) usersURI specBody specTree);
    vm_compute; reflexivity.
Defined.

(** C8, as it is stated, fails on a body that the passes rewrite with what
    it holds already.  On the URI of a Secret, [{ "data": {} }] has no value
    to replace, and elsewhere [{ "password": "[redacted]" }] holds the
    marker already: no pass alters the tree, and the body that comes back
    is the encoding of the tree, without the blanks of the input. *)
Lemma concealSensitiveData_reserialises_unchanged :
  (json_Unmarshal (EncodingJSON := RefJSON.codec) emptySecretBody
   = Ok (<["data" := JObj ∅]> ∅)
   ∧ (concealSecretData secretsURI (<["data" := JObj ∅]> ∅)).2
     = <["data" := JObj ∅]> ∅
   ∧ (concealMap (session 3 secretsURI emptySecretBody)
        (<["data" := JObj ∅]> ∅)).2
     = <["data" := JObj ∅]> ∅
   ∧ concealSensitiveData (H := RefJSON.codec)
       (session 3 secretsURI emptySecretBody) secretsURI emptySecretBody
     = "{" ++ quoted "data" ++ ":{}}"
   ∧ concealSensitiveData (H := RefJSON.codec)
       (session 3 secretsURI emptySecretBody) secretsURI emptySecretBody
     ≠ emptySecretBody)
  ∧ (json_Unmarshal (EncodingJSON := RefJSON.codec) redactedBody
     = Ok (<["password" := JStr redacted]> ∅)
     ∧ (concealSecretData usersURI (<["password" := JStr redacted]> ∅)).2
       = <["password" := JStr redacted]> ∅
     ∧ (concealMap (session 3 usersURI redactedBody)
          (<["password" := JStr redacted]> ∅)).2
       = <["password" := JStr redacted]> ∅
     ∧ concealSensitiveData (H := RefJSON.codec)
         (session 3 usersURI redactedBody) usersURI redactedBody
       = "{" ++ quoted "password" ++ ":" ++ quoted redacted ++ "}"
     ∧ concealSensitiveData (H := RefJSON.codec)
         (session 3 usersURI redactedBody) usersURI redactedBody
       ≠ redactedBody).
Proof.
  split; (split; [vm_compute; reflexivity|]);
    (split; [vm_compute; reflexivity|]);
    (split; [vm_compute; reflexivity|]);
    (split; [vm_compute; reflexivity|vm_compute; discriminate]).
Qed.

(** C9.  Redacting the result of a redaction, with the same URI and the
    same session, gives that result again byte for byte, provided the
    decoder reads back what the encoder wrote for the redacted tree. *)
Theorem concealSensitiveData_idempotent `{EncodingJSON} (a : auditLog)
    (requestURI : string) (body : bytes) :
  (∀ m, json_Unmarshal body = Ok m →
        roundTrips (concealTree a requestURI m).2) →
  concealSensitiveData a requestURI (concealSensitiveData a requestURI body)
  = concealSensitiveData a requestURI body.
Proof.
  intros Hround.
  destruct (json_Unmarshal body) as [m|e] eqn:Hm.
  - rewrite (concealSensitiveData_tree a requestURI body m Hm).
    destruct (concealTree a requestURI m) as [changed m'] eqn:Ht.
    cbn [fst snd]. destruct changed.
    + destruct (json_Marshal m') as [newBody|e] eqn:Hnew.
      * specialize (Hround m eq_refl). rewrite Ht in Hround.
        rewrite (concealSensitiveData_tree a requestURI newBody m')
          by (by apply Hround).
        pose proof (concealTree_again a requestURI m) as Hagain.
        rewrite Ht in Hagain. cbn [snd] in Hagain.
        rewrite Hagain. cbn [fst snd]. by rewrite Hnew.
      * rewrite (concealSensitiveData_tree a requestURI body m Hm).
        rewrite Ht. cbn [fst snd]. by rewrite Hnew.
    + rewrite (concealSensitiveData_tree a requestURI body m Hm).
      by rewrite Ht.
  - by rewrite !(concealSensitiveData_refused a requestURI body e Hm).
Qed.

Lemma concealSensitiveData_idempotent_witness :
  concealSensitiveData (H := RefJSON.codec)
    (session 3 secretsURI secretBody) secretsURI secretBody
  = "{" ++ quoted "data" ++ ":{" ++ quoted "tls.key" ++ ":" ++ quoted redacted
    ++ "}," ++ quoted "stringData" ++ ":{" ++ quoted "note" ++ ":"
    ++ quoted "plain" ++ "}}"
  ∧ concealSensitiveData (H := RefJSON.codec)
      (session 3 secretsURI secretBody) secretsURI
      (concealSensitiveData (H := RefJSON.codec)
         (session 3 secretsURI secretBody) secretsURI secretBody)
    = concealSensitiveData (H := RefJSON.codec)
        (session 3 secretsURI secretBody) secretsURI secretBody.
Proof.
  split; [vm_compute; reflexivity|].
  apply (concealSensitiveData_idempotent (H := RefJSON.codec)
           (session 3 secretsURI secretBody) secretsURI secretBody).
  intros m Hm.
  assert (m = secretTree) as ->.
  { assert (json_Unmarshal (EncodingJSON := RefJSON.codec) secretBody
            = Ok secretTree) as Hdec by (vm_compute; reflexivity).
    rewrite Hdec in Hm. by injection Hm. }
  intros b Hb.
  assert (json_Marshal (EncodingJSON := RefJSON.codec)
            (concealTree (session 3 secretsURI secretBody) secretsURI
               secretTree).2
          = Ok ("{" ++ quoted "data" ++ ":{" ++ quoted "tls.key" ++ ":"
                ++ quoted redacted ++ "}," ++ quoted "stringData" ++ ":{"
                ++ quoted "note" ++ ":" ++ quoted "plain" ++ "}}")) as Henc
    by (vm_compute; reflexivity).
  rewrite Henc in Hb. injection Hb as <-.
  vm_compute. reflexivity.
Defined.

(** ** The session *)

Lemma length_append (s t : string) :
  String.length (s ++ t) = String.length s + String.length t.
Proof. induction s as [|c s IH]; simpl; [done|]. by rewrite IH. Qed.

Lemma bytes_TrimSuffix_app (s suffix : bytes) :
  suffix ≠ EmptyString → bytes_TrimSuffix (s ++ suffix) suffix = s.
Proof.
  intros Hne. induction s as [|c s IH].
  - destruct suffix as [|d suffix]; [done|].
    change (bytes_TrimSuffix (String d suffix) (String d suffix) = "").
    unfold bytes_TrimSuffix. by rewrite String.eqb_refl.
  - change (bytes_TrimSuffix (String c s ++ suffix) suffix)
      with (if String.eqb (String c (s ++ suffix)) suffix then EmptyString
            else String c (bytes_TrimSuffix (s ++ suffix) suffix)).
    destruct (String.eqb_spec (String c (s ++ suffix)) suffix) as [Heq|_].
    + exfalso. apply (f_equal String.length) in Heq. simpl in Heq.
      rewrite length_append in Heq. lia.
    + by rewrite IH.
Qed.

Section Session.

Context `{EncodingJSON}.

Lemma requestBodyField_present (a : auditLog) :
  requestBodyField a ≠ EmptyString →
  (levelRequest ≤ Level (writer a))%Z ∧ reqBody a ≠ EmptyString.
Proof.
  unfold requestBodyField.
  destruct (levelRequest <=? Level (writer a))%Z eqn:Hlevel; [|done].
  destruct (reqBody a) as [|c s]; [done|]. intros _. split; [lia|done].
Qed.

Lemma responseBodyField_present (a : auditLog) (resHeaders : http.Header)
    (resBody : bytes) :
  responseBodyField a resHeaders resBody ≠ EmptyString →
  (levelRequestResponse ≤ Level (writer a))%Z
  ∧ http.Get resHeaders "Content-Type" = contentTypeJSON
  ∧ resBody ≠ EmptyString.
Proof.
  unfold responseBodyField.
  destruct (levelRequestResponse <=? Level (writer a))%Z eqn:Hlevel; [|done].
  destruct (String.eqb_spec (http.Get resHeaders "Content-Type")
              contentTypeJSON) as [Hct|]; [|done].
  destruct resBody as [|c s]; [done|]. intros _.
  split; [lia|]. by split.
Qed.

(** What [newAuditLog] leaves in [reqBody], and when. *)
Lemma newAuditLog_reqBody (w : LogWriter) (req : http.Request) (re : Regexp)
    (uid now : string) (a : auditLog) (req' : http.Request) :
  newAuditLog w req re uid now = (Ok a, req') →
  writer a = w
  ∧ RequestURI (log_ a) = http.RequestURI req
  ∧ (reqBody a ≠ EmptyString →
     (levelRequest ≤ Level w)%Z
     ∧ bodyMethod (http.Method req) = true
     ∧ http.Get (http.Header_ req) "Content-Type" = contentTypeJSON
     ∧ (ioutil_ReadAll (http.Body req)).1 = Ok (reqBody a)).
Proof.
  unfold newAuditLog.
  destruct (levelRequest <=? Level w)%Z eqn:Hlevel; simpl;
    [|by intros [= <- <-]].
  destruct (bodyMethod (http.Method req)) eqn:Hmethod; simpl;
    [|by intros [= <- <-]].
  destruct (String.eqb_spec (http.Get (http.Header_ req) "Content-Type")
              contentTypeJSON) as [Hct|]; [|by intros [= <- <-]].
  unfold readBodyWithoutLosingContent. rewrite Hmethod. simpl.
  destruct (ioutil_ReadAll (http.Body req)) as [[b|e] drained]; [|done].
  intros [= <- <-]. simpl. repeat split; try done. lia.
Qed.

(** The three ways [write] ends. *)
Lemma write_outcome (a : auditLog) (userInfo : option User)
    (reqHeaders resHeaders : http.Header) (resCode : Z) (resBody : bytes)
    (now : string) :
  let l := finalize (log_ a) userInfo reqHeaders resHeaders resCode now in
  let r := write a userInfo reqHeaders resHeaders resCode resBody now in
  match json_MarshalLog l with
  | Err e =>
      r.1 = Some e ∧ calls (Output (writer r.2)) = calls (Output (writer a))
  | Ok alByte =>
      match json_Compact (assemble a alByte resHeaders resBody) with
      | Err e =>
          r.1 = Some ("compact audit log json failed: " ++ e)
          ∧ calls (Output (writer r.2)) = calls (Output (writer a))
      | Ok compactBuffer =>
          r.1 = fault (Output (writer a))
          ∧ calls (Output (writer r.2))
            = (calls (Output (writer a))
               ++ [(compactBuffer ++ newline)%string])%list
      end
  end.
Proof.
  simpl. unfold write. cbn [log_ writer reqBody keysToConcealRegex].
  destruct (json_MarshalLog _) as [alByte|e]; [|done].
  change (assemble (mkAuditLog _ (writer a) (reqBody a)
                      (keysToConcealRegex a)) alByte resHeaders resBody)
    with (assemble a alByte resHeaders resBody).
  by destruct (json_Compact _) as [compactBuffer|e].
Qed.

End Session.

Lemma app_singleton_neq {A} (l : list A) (x : A) : l ≠ (l ++ [x])%list.
Proof.
  intros Heq. apply (f_equal length) in Heq.
  rewrite length_app in Heq. simpl in Heq. lia.
Qed.

(** C4 fails on a request body that is no JSON text.  At level Request a
    POST declared as [application/json] carries the body
    [1,"responseBody":{"leak":true}]; [json.Unmarshal] refuses it, the
    redaction returns it as it came and [write] pastes it after
    [,"requestBody":].  No [responseBody] field is appended, the level
    being below RequestResponse, yet the buffer is a JSON text, the
    compaction accepts it, and the line written is an object with a
    [responseBody] member. *)
Lemma write_pastes_forged_responseBody :
  newAuditLog (sinkAt levelRequest) forgingPost sensitiveKeys uid0 arrival
  = (Ok (session 2 usersURI forgingBody),
     http.withBody forgingPost (bytes_NewBuffer forgingBody))
  ∧ (Level (writer (session 2 usersURI forgingBody))
     < levelRequestResponse)%Z
  ∧ json_Unmarshal (EncodingJSON := RefJSON.codec) forgingBody
    = Err "invalid character"
  ∧ responseBodyField (H := RefJSON.codec) (session 2 usersURI forgingBody)
      ∅ EmptyString
    = EmptyString
  ∧ ∃ line record,
      write (H := RefJSON.codec) (session 2 usersURI forgingBody)
        (Some admin) traced ∅ 200 EmptyString departure
      = (None,
         mkAuditLog
           (finalize (log_ (session 2 usersURI forgingBody)) (Some admin)
              traced ∅ 200 departure)
           (mkLogWriter levelRequest (mkWriter [line] None))
           forgingBody sensitiveKeys)
      ∧ json_Unmarshal (EncodingJSON := RefJSON.codec) line = Ok record
      ∧ record !! "requestBody" = Some (JNum 4607182418800017408)
      ∧ record !! "responseBody" = Some (JObj (<["leak" := JBool true]> ∅)).
Proof.
  split; [reflexivity|]. split; [reflexivity|].
  split; [vm_compute; reflexivity|]. split; [reflexivity|].
  eexists. eexists.
  split; [vm_compute; reflexivity|].
  split; [vm_compute; reflexivity|].
  split; vm_compute; reflexivity.
Qed.

(** X20.  For a session made by [newAuditLog]: [write] appends a
    [requestBody] field to the buffer only when the level is at least
    Request, the request was a PUT or a POST declared as
    [application/json], and the captured body, which is what its stream
    held, is not empty; it appends a [responseBody] field only when the
    level is at least RequestResponse, the response is declared as
    [application/json] and its body is not empty; at level Metadata it
    appends neither, whatever the method and the content types.  The line
    that [write] hands to the sink is the compaction of the encoded record,
    its last brace taken off, followed by what was appended and a brace. *)
Theorem body_fields_gated `{EncodingJSON} (w : LogWriter)
    (req req' : http.Request) (re : Regexp) (uid now : string)
    (a : auditLog) (resHeaders : http.Header) (resBody : bytes) :
  newAuditLog w req re uid now = (Ok a, req') →
  (requestBodyField a ≠ EmptyString →
     (levelRequest ≤ Level w)%Z
     ∧ bodyMethod (http.Method req) = true
     ∧ http.Get (http.Header_ req) "Content-Type" = contentTypeJSON
     ∧ reqBody a ≠ EmptyString
     ∧ (ioutil_ReadAll (http.Body req)).1 = Ok (reqBody a))
  ∧ (responseBodyField a resHeaders resBody ≠ EmptyString →
       (levelRequestResponse ≤ Level w)%Z
       ∧ http.Get resHeaders "Content-Type" = contentTypeJSON
       ∧ resBody ≠ EmptyString)
  ∧ (Level w = levelMetadata →
       requestBodyField a = EmptyString
       ∧ responseBodyField a resHeaders resBody = EmptyString
       ∧ ∀ alByte, assemble a alByte resHeaders resBody
                   = bytes_TrimSuffix alByte "}" ++ "}")
  ∧ (∀ userInfo reqHeaders resCode departed line,
       calls (Output (writer
         (write a userInfo reqHeaders resHeaders resCode resBody departed).2))
       = (calls (Output w) ++ [line])%list →
       ∃ alByte compactBuffer,
         json_MarshalLog
           (finalize (log_ a) userInfo reqHeaders resHeaders resCode departed)
         = Ok alByte
         ∧ json_Compact
             (bytes_TrimSuffix alByte "}" ++ requestBodyField a
              ++ responseBodyField a resHeaders resBody ++ "}")
           = Ok compactBuffer
         ∧ line = compactBuffer ++ newline).
Proof.
  intros Hnew.
  destruct (newAuditLog_reqBody w req re uid now a req' Hnew)
    as (Hw & _ & Hcaptured).
  split; [|split; [|split]].
  - intros [Hlevel Hbody]%requestBodyField_present.
    rewrite Hw in Hlevel. destruct (Hcaptured Hbody) as (_ & ? & ? & ?).
    by repeat split.
  - intros Hfield%responseBodyField_present. by rewrite Hw in Hfield.
  - intros Hlevel.
    assert (requestBodyField a = EmptyString) as Hreq.
    { unfold requestBodyField. by rewrite Hw, Hlevel. }
    assert (responseBodyField a resHeaders resBody = EmptyString) as Hres.
    { unfold responseBodyField. by rewrite Hw, Hlevel. }
    repeat split; [done..|].
    intros alByte. unfold assemble. by rewrite Hreq, Hres.
  - intros userInfo reqHeaders resCode departed line Hline.
    pose proof (write_outcome a userInfo reqHeaders resHeaders resCode
                  resBody departed) as Hout.
    simpl in Hout. rewrite Hw in Hout.
    destruct (json_MarshalLog _) as [alByte|e].
    + destruct (json_Compact _) as [compactBuffer|e] eqn:Hcompact.
      * destruct Hout as [_ Hcalls]. rewrite Hcalls in Hline.
        apply app_inv_head in Hline. injection Hline as <-.
        by exists alByte, compactBuffer.
      * destruct Hout as [_ Hcalls]. rewrite Hcalls in Hline.
        by apply app_singleton_neq in Hline.
    + destruct Hout as [_ Hcalls]. rewrite Hcalls in Hline.
      by apply app_singleton_neq in Hline.
Qed.

Lemma body_fields_gated_witness :
  newAuditLog (sinkAt 3) postJSON sensitiveKeys uid0 arrival
  = (Ok (session 3 usersURI specBody),
     http.withBody postJSON (bytes_NewBuffer specBody))
  ∧ requestBodyField (H := RefJSON.codec) (session 3 usersURI specBody)
    = rawField "requestBody" ++ "{" ++ quoted "spec" ++ ":{"
      ++ quoted "password" ++ ":" ++ quoted redacted ++ ","
      ++ quoted "replicas" ++ ":3}}"
  ∧ (levelRequest ≤ Level (sinkAt 3))%Z
  ∧ bodyMethod (http.Method postJSON) = true
  ∧ http.Get (http.Header_ postJSON) "Content-Type" = contentTypeJSON
  ∧ reqBody (session 3 usersURI specBody) ≠ EmptyString
  ∧ (ioutil_ReadAll (http.Body postJSON)).1
    = Ok (reqBody (session 3 usersURI specBody)).
Proof.
  split; [reflexivity|]. split; [vm_compute; reflexivity|].
  apply (body_fields_gated (H := RefJSON.codec) (sinkAt 3) postJSON
           (http.withBody postJSON (bytes_NewBuffer specBody))
           sensitiveKeys uid0 arrival (session 3 usersURI specBody)
           jsonResponse specBody).
  - reflexivity.
  - vm_compute. discriminate.
Defined.

Lemma bytes_TrimSuffix_brace (r : bytes) :
  ∃ r', bytes_TrimSuffix ("{" ++ r) "}" = "{" ++ r'.
Proof. by exists (bytes_TrimSuffix r "}"). Qed.

(** C7.  [valid] tells the texts that are JSON and [compacted] those with
    no insignificant white space; of encoding/json it is assumed that
    [json.Compact] fails on a text that is not valid, that what it returns
    is valid and compacted, that it keeps an opening brace at the front, and
    that the encoding of the record opens with a brace.  When the buffer
    that [write] has assembled is not valid, [write] returns an error and
    the sink receives nothing.  Whatever happens, the sink receives nothing
    or one line, and a line it receives is, before its newline, a valid and
    compacted JSON text that opens with a brace, the compaction of the
    buffer.  When no body field is added, the buffer is the encoding of the
    record as the encoder gave it. *)
Theorem write_compaction_gate `{EncodingJSON} (valid compacted : bytes → bool)
    (a : auditLog) (userInfo : option User)
    (reqHeaders resHeaders : http.Header) (resCode : Z) (resBody : bytes)
    (now : string) :
  (∀ b, valid b = false → ∃ e, json_Compact b = Err e) →
  (∀ b c, json_Compact b = Ok c → valid c = true ∧ compacted c = true) →
  (∀ r c, json_Compact ("{" ++ r) = Ok c → ∃ r', c = "{" ++ r') →
  (∀ l alByte, json_MarshalLog l = Ok alByte → ∃ r, alByte = "{" ++ r) →
  let l := finalize (log_ a) userInfo reqHeaders resHeaders resCode now in
  let r := write a userInfo reqHeaders resHeaders resCode resBody now in
  (∀ alByte, json_MarshalLog l = Ok alByte →
     valid (assemble a alByte resHeaders resBody) = false →
     (∃ e, r.1 = Some e)
     ∧ calls (Output (writer r.2)) = calls (Output (writer a)))
  ∧ (calls (Output (writer r.2)) = calls (Output (writer a))
     ∨ ∃ alByte compactBuffer rest,
         json_MarshalLog l = Ok alByte
         ∧ valid (assemble a alByte resHeaders resBody) = true
         ∧ json_Compact (assemble a alByte resHeaders resBody)
           = Ok compactBuffer
         ∧ calls (Output (writer r.2))
           = (calls (Output (writer a))
              ++ [(compactBuffer ++ newline)%string])%list
         ∧ valid compactBuffer = true
         ∧ compacted compactBuffer = true
         ∧ compactBuffer = "{" ++ rest)
  ∧ (∀ record,
       requestBodyField a = EmptyString →
       responseBodyField a resHeaders resBody = EmptyString →
       assemble a (record ++ "}") resHeaders resBody = record ++ "}").
Proof.
  intros Hrejects Hresult Hbrace Hstruct. simpl.
  pose proof (write_outcome a userInfo reqHeaders resHeaders resCode resBody
                now) as Hout.
  simpl in Hout. split; [|split].
  - intros alByte Hal Hinvalid. rewrite Hal in Hout.
    destruct (Hrejects _ Hinvalid) as [e He]. rewrite He in Hout.
    destruct Hout as [Herr Hcalls]. split; [|done]. eauto.
  - destruct (json_MarshalLog _) as [alByte|e] eqn:Hal; [|left; apply Hout].
    destruct (json_Compact _) as [compactBuffer|e] eqn:Hc;
      [|left; apply Hout].
    right. destruct (Hresult _ _ Hc) as [Hvalid Hcompacted].
    destruct (Hstruct _ _ Hal) as [r0 ->].
    assert (∃ rest, compactBuffer = "{" ++ rest) as [rest Hrest].
    { unfold assemble in Hc.
      destruct (bytes_TrimSuffix_brace r0) as [r' Hr']. rewrite Hr' in Hc.
      by apply (Hbrace _ _ Hc). }
    exists ("{" ++ r0), compactBuffer, rest.
    split; [done|]. split; [|split; [done|split; [apply Hout|done]]].
    destruct (valid (assemble a ("{" ++ r0) resHeaders resBody)) eqn:Hv;
      [done|].
    destruct (Hrejects _ Hv) as [e He]. congruence.
  - intros record Hreq Hres. unfold assemble. rewrite Hreq, Hres. simpl.
    by rewrite bytes_TrimSuffix_app.
Qed.

Lemma write_compaction_gate_witness :
  (RefJSON.Valid
     (assemble (H := RefJSON.checked) (session 3 usersURI specBody)
        ("{" ++ quoted "auditID" ++ ":" ++ quoted uid0 ++ "}")
        jsonResponse brokenBody)
   = false
   ∧ (∃ e, (write (H := RefJSON.checked) (session 3 usersURI specBody)
              None ∅ jsonResponse 0 brokenBody EmptyString).1 = Some e)
   ∧ calls (Output (writer
        (write (H := RefJSON.checked) (session 3 usersURI specBody)
           None ∅ jsonResponse 0 brokenBody EmptyString).2))
     = [])
  ∧ ∃ line rest,
      calls (Output (writer
        (write (H := RefJSON.checked) (session 3 usersURI specBody)
           (Some admin) traced jsonResponse 200 secretBody departure).2))
      = [line ++ newline]
      ∧ RefJSON.Valid line = true
      ∧ RefJSON.isCompact line = true
      ∧ line = "{" ++ rest.
Proof.
  assert (∀ b, RefJSON.Valid b = false →
               ∃ e, json_Compact (EncodingJSON := RefJSON.checked) b = Err e)
    as Hrejects.
  { intros b Hb. simpl. unfold RefJSON.CompactChecked, RefJSON.Compact.
    rewrite Hb. eauto. }
  assert (∀ b c, json_Compact (EncodingJSON := RefJSON.checked) b = Ok c →
                 RefJSON.Valid c = true ∧ RefJSON.isCompact c = true)
    as Hresult.
  { intros b c. simpl. unfold RefJSON.CompactChecked.
    destruct (RefJSON.Compact b) as [dst|e]; [|done].
    destruct (RefJSON.Valid dst && RefJSON.isCompact dst) eqn:Hdst; [|done].
    intros [= <-]. by apply andb_true_iff. }
  assert (∀ r c, json_Compact (EncodingJSON := RefJSON.checked) ("{" ++ r)
                 = Ok c → ∃ r', c = "{" ++ r') as Hbrace.
  { intros r c. simpl. unfold RefJSON.CompactChecked, RefJSON.Compact.
    destruct (RefJSON.Valid ("{" ++ r)); [|done].
    destruct (RefJSON.Valid _ && RefJSON.isCompact _); [|done].
    intros [= <-]. by exists (RefJSON.stripSpace false false r). }
  assert (∀ l alByte,
            json_MarshalLog (EncodingJSON := RefJSON.checked) l = Ok alByte →
            ∃ r, alByte = "{" ++ r) as Hstruct.
  { intros l alByte. simpl. unfold RefJSON.MarshalLog, RefJSON.printStruct.
    destruct (negb _); [done|].
    destruct (mapM id _) as [fields|]; [|done].
    intros [= <-]. eauto. }
  split.
  - split; [vm_compute; reflexivity|].
    destruct (write_compaction_gate (H := RefJSON.checked) RefJSON.Valid
                RefJSON.isCompact (session 3 usersURI specBody) None ∅
                jsonResponse 0 brokenBody EmptyString Hrejects Hresult
                Hbrace Hstruct) as (Hgate & _).
    apply (Hgate ("{" ++ quoted "auditID" ++ ":" ++ quoted uid0 ++ ","
                  ++ quoted "requestURI" ++ ":" ++ quoted usersURI ++ ","
                  ++ quoted "method" ++ ":" ++ quoted "POST" ++ ","
                  ++ quoted "remoteAddr" ++ ":" ++ quoted "10.0.0.7:4312"
                  ++ "," ++ quoted "requestTimestamp" ++ ":"
                  ++ quoted arrival ++ "," ++ quoted "responseHeader" ++ ":{"
                  ++ quoted "Content-Type" ++ ":[" ++ quoted contentTypeJSON
                  ++ "]}}"));
      vm_compute; reflexivity.
  - destruct (write_compaction_gate (H := RefJSON.checked) RefJSON.Valid
                RefJSON.isCompact (session 3 usersURI specBody) (Some admin)
                traced jsonResponse 200 secretBody departure Hrejects
                Hresult Hbrace Hstruct)
      as (_ & [Hnone|(alByte & line & rest & _ & _ & _ & Hline & Hvalid
                      & Hcompacted & Hopen)] & _).
    + vm_compute in Hnone. discriminate.
    + exists line, rest. by repeat split.
Defined.

(** C10 fails on a response body that is no JSON text.  The PUT declares
    [application/json; charset=utf-8], so no request body is captured and
    no [requestBody] field is appended; at level RequestResponse the
    response, declared as [application/json], carries
    [1,"requestBody":{"forged":true}], which [write] pastes after
    [,"responseBody":], and the line written is an object with a
    [requestBody] member. *)
Lemma write_pastes_forged_requestBody :
  http.Get (http.Header_ putWithCharset) "Content-Type"
  = "application/json; charset=utf-8"
  ∧ newAuditLog (sinkAt levelRequestResponse) putWithCharset sensitiveKeys
      uid0 arrival
    = (Ok charsetSession, putWithCharset)
  ∧ reqBody charsetSession = EmptyString
  ∧ requestBodyField (H := RefJSON.codec) charsetSession = EmptyString
  ∧ ∃ line record,
      write (H := RefJSON.codec) charsetSession (Some admin) traced
        jsonResponse 200 forgingResponse departure
      = (None,
         mkAuditLog
           (finalize (log_ charsetSession) (Some admin) traced jsonResponse
              200 departure)
           (mkLogWriter levelRequestResponse (mkWriter [line] None))
           EmptyString sensitiveKeys)
      ∧ json_Unmarshal (EncodingJSON := RefJSON.codec) line = Ok record
      ∧ record !! "responseBody" = Some (JNum 4607182418800017408)
      ∧ record !! "requestBody"
        = Some (JObj (<["forged" := JBool true]> ∅)).
Proof.
  split; [reflexivity|]. split; [reflexivity|]. split; [reflexivity|].
  split; [reflexivity|].
  eexists. eexists.
  split; [vm_compute; reflexivity|].
  split; [vm_compute; reflexivity|].
  split; vm_compute; reflexivity.
Qed.

(** X21.  When the [Content-Type] header of the request is not the text
    [application/json], letter for letter, [newAuditLog] succeeds without
    reading the body: the session holds no request body, the request is
    left as it was, and [write] appends no [requestBody] field to the
    buffer, at any level and for any method.  So it is for
    [application/json; charset=utf-8]. *)
Theorem newAuditLog_exact_content_type `{EncodingJSON} (w : LogWriter)
    (req : http.Request) (re : Regexp) (uid now : string) :
  http.Get (http.Header_ req) "Content-Type" ≠ contentTypeJSON →
  ∃ a, newAuditLog w req re uid now = (Ok a, req)
       ∧ reqBody a = EmptyString
       ∧ requestBodyField a = EmptyString
       ∧ ∀ alByte resHeaders resBody,
           assemble a alByte resHeaders resBody
           = bytes_TrimSuffix alByte "}"
             ++ responseBodyField a resHeaders resBody ++ "}".
Proof.
  intros Hct. unfold newAuditLog.
  destruct (String.eqb_spec (http.Get (http.Header_ req) "Content-Type")
              contentTypeJSON) as [?|_]; [done|].
  rewrite andb_false_r. eexists. split; [reflexivity|].
  split; [done|].
  assert (∀ a, reqBody a = EmptyString → requestBodyField a = EmptyString)
    as Hfield.
  { intros a Ha. unfold requestBodyField. rewrite Ha. simpl.
    by rewrite andb_false_r. }
  split; [by apply Hfield|].
  intros alByte resHeaders resBody. unfold assemble.
  by rewrite Hfield.
Qed.

Lemma newAuditLog_exact_content_type_witness :
  http.Method putWithCharset = "PUT"
  ∧ http.Get (http.Header_ putWithCharset) "Content-Type"
    = "application/json; charset=utf-8"
  ∧ (ioutil_ReadAll (http.Body putWithCharset)).1 = Ok specBody
  ∧ ∃ a, newAuditLog (sinkAt levelRequestResponse) putWithCharset
           sensitiveKeys uid0 arrival
         = (Ok a, putWithCharset)
         ∧ reqBody a = EmptyString
         ∧ requestBodyField (H := RefJSON.codec) a = EmptyString.
Proof.
  split; [reflexivity|]. split; [reflexivity|]. split; [reflexivity|].
  destruct (newAuditLog_exact_content_type (H := RefJSON.codec)
              (sinkAt levelRequestResponse) putWithCharset sensitiveKeys
              uid0 arrival) as (a & Hnew & Hbody & Hfield & _).
  - vm_compute. discriminate.
  - exists a. by repeat split.
Defined.

(** * Further properties of the code *)

(** ** Header filter *)

Lemma filterOutHeaders_lookup (hdrs : http.Header) (filterKeys : list string)
    (k : string) :
  filterOutHeaders hdrs filterKeys !! k
  = if isExist filterKeys k then None else hdrs !! k.
Proof.
  unfold filterOutHeaders. rewrite filterOutHeaders_run_loop.
  destruct (filterOutHeaders_loop_spec filterKeys (map_to_list hdrs) hdrs)
    as [_ Hn]; [apply NoDup_fst_map_to_list|].
  by rewrite Hn, list_to_map_to_list.
Qed.

Lemma isExist_app (l1 l2 : list string) (key : string) :
  isExist (l1 ++ l2) key = isExist l1 key || isExist l2 key.
Proof.
  induction l1 as [|v l1 IH]; simpl; [done|].
  by destruct (String.eqb v key).
Qed.

(** X1.  [isExist] answers true exactly when the key is an element of the
    array, compared as a whole and letter for letter. *)
Theorem isExist_iff_member (array : list string) (key : string) :
  isExist array key = true ↔ key ∈ array.
Proof. apply isExist_elem_of. Qed.

(** X2.  Filtering with one deny list and then with another is filtering
    once with both; so filtering twice with the same list changes nothing
    more, and the order of two filters does not matter. *)
Theorem filterOutHeaders_compose (hdrs : http.Header)
    (keys1 keys2 : list string) :
  filterOutHeaders (filterOutHeaders hdrs keys1) keys2
  = filterOutHeaders hdrs (keys1 ++ keys2)
  ∧ filterOutHeaders (filterOutHeaders hdrs keys1) keys1
    = filterOutHeaders hdrs keys1
  ∧ filterOutHeaders (filterOutHeaders hdrs keys1) keys2
    = filterOutHeaders (filterOutHeaders hdrs keys2) keys1.
Proof.
  repeat split; apply map_eq; intros k;
    rewrite !filterOutHeaders_lookup, ?isExist_app;
    by destruct (isExist keys1 k), (isExist keys2 k).
Qed.

(** X3.  The filtered map is a part of the map given, it holds no key of
    the deny list, and it is the whole map exactly when the map given holds
    no key of the deny list; with an empty deny list it is a copy. *)
Theorem filterOutHeaders_submap (hdrs : http.Header)
    (filterKeys : list string) :
  filterOutHeaders hdrs filterKeys ⊆ hdrs
  ∧ (∀ k, k ∈ filterKeys → filterOutHeaders hdrs filterKeys !! k = None)
  ∧ (filterOutHeaders hdrs filterKeys = hdrs
     ↔ ∀ k, k ∈ filterKeys → hdrs !! k = None)
  ∧ filterOutHeaders hdrs [] = hdrs.
Proof.
  split; [|split; [|split]].
  - apply map_subseteq_spec. intros k v.
    rewrite filterOutHeaders_lookup. by destruct (isExist filterKeys k).
  - intros k Hk%isExist_elem_of. by rewrite filterOutHeaders_lookup, Hk.
  - split.
    + intros Heq k Hk%isExist_elem_of.
      rewrite <-Heq, filterOutHeaders_lookup. by rewrite Hk.
    + intros Hnone. apply map_eq. intros k.
      rewrite filterOutHeaders_lookup.
      destruct (isExist filterKeys k) eqn:Hk; [|done].
      symmetry. by apply Hnone, isExist_elem_of.
  - apply map_eq. intros k. by rewrite filterOutHeaders_lookup.
Qed.

(** ** The record that [write] leaves *)

Lemma write_session `{EncodingJSON} (a : auditLog) (userInfo : option User)
    (reqHeaders resHeaders : http.Header) (resCode : Z) (resBody : bytes)
    (now : string) :
  let r := write a userInfo reqHeaders resHeaders resCode resBody now in
  log_ r.2 = finalize (log_ a) userInfo reqHeaders resHeaders resCode now
  ∧ Level (writer r.2) = Level (writer a)
  ∧ fault (Output (writer r.2)) = fault (Output (writer a))
  ∧ reqBody r.2 = reqBody a
  ∧ keysToConcealRegex r.2 = keysToConcealRegex a.
Proof.
  simpl. unfold write.
  destruct (json_MarshalLog _) as [alByte|e]; [|done].
  by destruct (json_Compact _) as [compactBuffer|e].
Qed.

(** X4.  However [write] ends, the record it leaves holds the request
    headers without [Cookie] and [Authorization] and the response headers
    without [Cookie] and [Set-Cookie]; every other header is there with
    its values. *)
Theorem write_drops_sensitive_headers `{EncodingJSON} (a : auditLog)
    (userInfo : option User) (reqHeaders resHeaders : http.Header)
    (resCode : Z) (resBody : bytes) (now : string) :
  let r := write a userInfo reqHeaders resHeaders resCode resBody now in
  RequestHeader (log_ r.2) !! "Cookie" = None
  ∧ RequestHeader (log_ r.2) !! "Authorization" = None
  ∧ ResponseHeader (log_ r.2) !! "Cookie" = None
  ∧ ResponseHeader (log_ r.2) !! "Set-Cookie" = None
  ∧ (∀ k, k ≠ "Cookie" → k ≠ "Authorization" →
          RequestHeader (log_ r.2) !! k = reqHeaders !! k)
  ∧ (∀ k, k ≠ "Cookie" → k ≠ "Set-Cookie" →
          ResponseHeader (log_ r.2) !! k = resHeaders !! k).
Proof.
  simpl.
  destruct (write_session a userInfo reqHeaders resHeaders resCode resBody
              now) as (-> & _).
  cbn [finalize RequestHeader ResponseHeader].
  repeat split; try (by rewrite filterOutHeaders_lookup).
  - intros k Hc Ha. rewrite filterOutHeaders_lookup.
    destruct (isExist sensitiveRequestHeader k) eqn:Hex; [|done].
    apply isExist_elem_of in Hex. unfold sensitiveRequestHeader in Hex.
    rewrite !elem_of_cons, elem_of_nil in Hex.
    by destruct Hex as [->|[->|[]]].
  - intros k Hc Hs. rewrite filterOutHeaders_lookup.
    destruct (isExist sensitiveResponseHeader k) eqn:Hex; [|done].
    apply isExist_elem_of in Hex. unfold sensitiveResponseHeader in Hex.
    rewrite !elem_of_cons, elem_of_nil in Hex.
    by destruct Hex as [->|[->|[]]].
Qed.

(** X5.  [write] returns no error exactly when the record encodes, the
    assembled buffer compacts and the sink accepts the line.  An error of the
    encoder is returned as it is and an error of the compaction under the
    prefix [compact audit log json failed: ], both before the sink is
    called; an error of the sink is returned after the one line was handed
    to it, and no second call is made. *)
Theorem write_errors `{EncodingJSON} (a : auditLog) (userInfo : option User)
    (reqHeaders resHeaders : http.Header) (resCode : Z) (resBody : bytes)
    (now : string) :
  let l := finalize (log_ a) userInfo reqHeaders resHeaders resCode now in
  let r := write a userInfo reqHeaders resHeaders resCode resBody now in
  (r.1 = None
   ↔ ∃ alByte compactBuffer,
       json_MarshalLog l = Ok alByte
       ∧ json_Compact (assemble a alByte resHeaders resBody)
         = Ok compactBuffer
       ∧ fault (Output (writer a)) = None)
  ∧ (∀ e, json_MarshalLog l = Err e →
          r.1 = Some e
          ∧ calls (Output (writer r.2)) = calls (Output (writer a)))
  ∧ (∀ alByte e,
       json_MarshalLog l = Ok alByte →
       json_Compact (assemble a alByte resHeaders resBody) = Err e →
       r.1 = Some ("compact audit log json failed: " ++ e)
       ∧ calls (Output (writer r.2)) = calls (Output (writer a)))
  ∧ (∀ alByte compactBuffer e,
       json_MarshalLog l = Ok alByte →
       json_Compact (assemble a alByte resHeaders resBody)
       = Ok compactBuffer →
       fault (Output (writer a)) = Some e →
       r.1 = Some e
       ∧ calls (Output (writer r.2))
         = (calls (Output (writer a))
            ++ [(compactBuffer ++ newline)%string])%list).
Proof.
  simpl.
  pose proof (write_outcome a userInfo reqHeaders resHeaders resCode resBody
                now) as Hout.
  simpl in Hout. split; [|split; [|split]].
  - destruct (json_MarshalLog _) as [alByte|e].
    + destruct (json_Compact _) as [compactBuffer|e] eqn:Hc.
      * destruct Hout as [-> _]. split.
        -- intros Hfault. by exists alByte, compactBuffer.
        -- by intros (? & ? & _ & _ & ?).
      * destruct Hout as [-> _]. split; [done|].
        intros (alByte' & c & [= <-] & Hc' & _). congruence.
    + destruct Hout as [-> _]. split; [done|].
      by intros (? & ? & ? & _).
  - intros e He. by rewrite He in Hout.
  - intros alByte e Hal He. by rewrite Hal, He in Hout.
  - intros alByte compactBuffer e Hal Hc Hfault.
    rewrite Hal, Hc in Hout. destruct Hout as [-> ->]. by split.
Qed.

(** X6.  Below level Request the outcome of [write] (the error returned
    and what the sink has received) depends neither on the captured
    request body, nor on the pattern, nor on the response body; below
    level RequestResponse it does not depend on the response body. *)
Theorem write_ignores_bodies `{EncodingJSON} (a : auditLog)
    (userInfo : option User) (reqHeaders resHeaders : http.Header)
    (resCode : Z) (now : string) :
  ((Level (writer a) < levelRequest)%Z →
   ∀ reqBody' re' resBody resBody',
     let a' := mkAuditLog (log_ a) (writer a) reqBody' re' in
     let r := write a userInfo reqHeaders resHeaders resCode resBody now in
     let r' := write a' userInfo reqHeaders resHeaders resCode resBody' now in
     r.1 = r'.1 ∧ Output (writer r.2) = Output (writer r'.2))
  ∧ ((Level (writer a) < levelRequestResponse)%Z →
     ∀ resBody resBody',
       write a userInfo reqHeaders resHeaders resCode resBody now
       = write a userInfo reqHeaders resHeaders resCode resBody' now).
Proof.
  split.
  - intros Hlevel reqBody' re' resBody resBody'. simpl.
    assert (∀ alByte,
              assemble a alByte resHeaders resBody
              = assemble (mkAuditLog (log_ a) (writer a) reqBody' re')
                  alByte resHeaders resBody') as Hbuffer.
    { intros alByte.
      unfold assemble, requestBodyField, responseBodyField. simpl.
      replace (levelRequest <=? Level (writer a))%Z with false
        by (symmetry; apply Z.leb_gt; lia).
      replace (levelRequestResponse <=? Level (writer a))%Z with false
        by (symmetry; apply Z.leb_gt; unfold levelRequest in Hlevel;
            unfold levelRequestResponse; lia).
      done. }
    unfold write. simpl.
    destruct (json_MarshalLog _) as [alByte|e]; [|done].
    change (assemble (mkAuditLog _ (writer a) (reqBody a)
                        (keysToConcealRegex a)) alByte resHeaders resBody)
      with (assemble a alByte resHeaders resBody).
    change (assemble (mkAuditLog _ (writer a) reqBody' re') alByte
              resHeaders resBody')
      with (assemble (mkAuditLog (log_ a) (writer a) reqBody' re') alByte
              resHeaders resBody').
    rewrite <-Hbuffer.
    by destruct (json_Compact _) as [compactBuffer|e].
  - intros Hlevel resBody resBody'.
    assert (∀ alByte b,
              assemble a alByte resHeaders b
              = bytes_TrimSuffix alByte "}" ++ requestBodyField a ++ "}")
      as Hbuffer.
    { intros alByte b. unfold assemble, responseBodyField.
      replace (levelRequestResponse <=? Level (writer a))%Z with false
        by (symmetry; apply Z.leb_gt; lia).
      done. }
    unfold write. simpl.
    destruct (json_MarshalLog _) as [alByte|e]; [|done].
    change (assemble (mkAuditLog _ (writer a) (reqBody a)
                        (keysToConcealRegex a)) alByte resHeaders resBody)
      with (assemble a alByte resHeaders resBody).
    change (assemble (mkAuditLog _ (writer a) (reqBody a)
                        (keysToConcealRegex a)) alByte resHeaders resBody')
      with (assemble a alByte resHeaders resBody').
    by rewrite (Hbuffer alByte resBody), (Hbuffer alByte resBody').
Qed.

Lemma write_ignores_bodies_witness :
  (Level (writer (session 1 usersURI specBody)) < levelRequest)%Z
  ∧ (write (H := RefJSON.codec) (session 1 usersURI specBody)
       (Some admin) traced jsonResponse 200 secretBody departure).1
    = (write (H := RefJSON.codec)
         (mkAuditLog (log_ (session 1 usersURI specBody))
            (writer (session 1 usersURI specBody)) usersBody matchNothing)
         (Some admin) traced jsonResponse 200 brokenBody departure).1
  ∧ (Level (writer (session 2 usersURI specBody)) < levelRequestResponse)%Z
  ∧ write (H := RefJSON.codec) (session 2 usersURI specBody)
      (Some admin) traced jsonResponse 200 secretBody departure
    = write (H := RefJSON.codec) (session 2 usersURI specBody)
        (Some admin) traced jsonResponse 200 brokenBody departure.
Proof.
  pose proof (write_ignores_bodies (H := RefJSON.codec)
                (session 1 usersURI specBody) (Some admin) traced
                jsonResponse 200 departure) as [Hlow _].
  pose proof (write_ignores_bodies (H := RefJSON.codec)
                (session 2 usersURI specBody) (Some admin) traced
                jsonResponse 200 departure) as [_ Hmid].
  split; [reflexivity|]. split.
  - apply (Hlow eq_refl usersBody matchNothing secretBody brokenBody).
  - split; [reflexivity|]. apply (Hmid eq_refl).
Defined.

(** ** Session creation and body capture *)

Lemma bodyMethod_spec (k : string) :
  bodyMethod k = true ↔ k = "PUT" ∨ k = "POST".
Proof.
  unfold bodyMethod, bodyMethods.
  destruct (decide (k = "PUT")) as [->|Hput]; [by split; auto|].
  destruct (decide (k = "POST")) as [->|Hpost]; [by split; auto|].
  rewrite !lookup_insert_ne, lookup_empty by done. simpl.
  split; [done|]. by intros [?|?].
Qed.

(** X7.  [newAuditLog] holds a request body only for a request whose
    method is spelled [PUT] or [POST]: the body of any other method, such
    as [PATCH] or [DELETE] or [post], is never read, the request is left as
    it was and the session holds no body. *)
Theorem newAuditLog_body_methods (w : LogWriter) (req : http.Request)
    (re : Regexp) (uid now : string) :
  (∀ a req', newAuditLog w req re uid now = (Ok a, req') →
             reqBody a ≠ EmptyString →
             http.Method req = "PUT" ∨ http.Method req = "POST")
  ∧ (http.Method req ≠ "PUT" → http.Method req ≠ "POST" →
     ∃ a, newAuditLog w req re uid now = (Ok a, req)
          ∧ reqBody a = EmptyString).
Proof.
  split.
  - intros a req' Hnew Hbody.
    destruct (newAuditLog_reqBody w req re uid now a req' Hnew)
      as (_ & _ & Hcaptured).
    destruct (Hcaptured Hbody) as (_ & Hmethod & _).
    by apply bodyMethod_spec.
  - intros Hput Hpost. unfold newAuditLog.
    assert (bodyMethod (http.Method req) = false) as ->.
    { apply not_true_is_false. rewrite bodyMethod_spec. by intros [?|?]. }
    rewrite andb_false_r. simpl. eauto.
Qed.

(** X8.  [newAuditLog] fails exactly when it has to read the body (level
    at least Request, method PUT or POST, content type
    [application/json]) and the stream breaks; the error it returns is the
    one of the stream. *)
Theorem newAuditLog_fails_iff (w : LogWriter) (req : http.Request)
    (re : Regexp) (uid now : string) (e : error) :
  (newAuditLog w req re uid now).1 = Err e
  ↔ (levelRequest ≤ Level w)%Z
    ∧ (http.Method req = "PUT" ∨ http.Method req = "POST")
    ∧ http.Get (http.Header_ req) "Content-Type" = contentTypeJSON
    ∧ failure (http.Body req) = Some e.
Proof.
  rewrite <-bodyMethod_spec. unfold newAuditLog.
  destruct (levelRequest <=? Level w)%Z eqn:Hlevel; simpl.
  - apply Z.leb_le in Hlevel.
    destruct (bodyMethod (http.Method req)) eqn:Hmethod; simpl.
    + destruct (String.eqb_spec (http.Get (http.Header_ req) "Content-Type")
                  contentTypeJSON) as [Hct|Hct].
      * unfold readBodyWithoutLosingContent, ioutil_ReadAll.
        rewrite Hmethod. simpl.
        destruct (failure (http.Body req)) as [e'|]; simpl.
        -- split; [by intros [= ->]|]. by intros (_ & _ & _ & [= ->]).
        -- split; [done|]. by intros (_ & _ & _ & ?).
      * split; [done|]. by intros (_ & _ & ? & _).
    + split; [done|]. by intros (_ & ? & _).
  - apply Z.leb_gt in Hlevel. split; [done|]. intros (? & _). lia.
Qed.

(** X9.  Whatever [newAuditLog] does with the body, the request it leaves
    has the URI, the method, the remote address and the headers it had,
    and its body stream reads to what the stream of the request given
    would have read to. *)
Theorem newAuditLog_preserves_request (w : LogWriter) (req : http.Request)
    (re : Regexp) (uid now : string) (a : auditLog) (req' : http.Request) :
  newAuditLog w req re uid now = (Ok a, req') →
  http.RequestURI req' = http.RequestURI req
  ∧ http.Method req' = http.Method req
  ∧ http.RemoteAddr req' = http.RemoteAddr req
  ∧ http.Header_ req' = http.Header_ req
  ∧ (ioutil_ReadAll (http.Body req')).1 = (ioutil_ReadAll (http.Body req)).1.
Proof.
  unfold newAuditLog.
  destruct ((levelRequest <=? Level w)%Z && bodyMethod (http.Method req)
            && String.eqb (http.Get (http.Header_ req) "Content-Type")
                 contentTypeJSON); [|by intros [= <- <-]].
  unfold readBodyWithoutLosingContent.
  destruct (negb (bodyMethod (http.Method req))); [by intros [= <- <-]|].
  unfold ioutil_ReadAll.
  destruct (failure (http.Body req)) as [e|]; simpl; [done|].
  by intros [= <- <-].
Qed.

Lemma newAuditLog_preserves_request_witness :
  newAuditLog (sinkAt 3) postJSON sensitiveKeys uid0 arrival
  = (Ok (session 3 usersURI specBody),
     http.withBody postJSON (bytes_NewBuffer specBody))
  ∧ (ioutil_ReadAll
       (http.Body (http.withBody postJSON (bytes_NewBuffer specBody)))).1
    = (ioutil_ReadAll (http.Body postJSON)).1.
Proof.
  split; [reflexivity|].
  apply (newAuditLog_preserves_request (sinkAt 3) postJSON sensitiveKeys
           uid0 arrival (session 3 usersURI specBody)).
  reflexivity.
Defined.

(** X10.  A capture can be repeated: on the request that a successful
    call has left, [readBodyWithoutLosingContent] returns the same bytes
    again and leaves that request as it is. *)
Theorem readBodyWithoutLosingContent_again (req : http.Request) (b : bytes) :
  (readBodyWithoutLosingContent req).1 = Ok b →
  readBodyWithoutLosingContent (readBodyWithoutLosingContent req).2
  = (Ok b, (readBodyWithoutLosingContent req).2).
Proof.
  unfold readBodyWithoutLosingContent at 1 3 4.
  destruct (bodyMethod (http.Method req)) eqn:Hmethod; simpl.
  - unfold ioutil_ReadAll.
    destruct (failure (http.Body req)) as [e|]; simpl; [done|].
    intros [= <-]. unfold readBodyWithoutLosingContent. simpl.
    by rewrite Hmethod.
  - intros [= <-]. unfold readBodyWithoutLosingContent. by rewrite Hmethod.
Qed.

Lemma readBodyWithoutLosingContent_again_witness :
  (readBodyWithoutLosingContent postJSON).1 = Ok specBody
  ∧ readBodyWithoutLosingContent (readBodyWithoutLosingContent postJSON).2
    = (Ok specBody, (readBodyWithoutLosingContent postJSON).2).
Proof.
  split; [reflexivity|].
  apply (readBodyWithoutLosingContent_again postJSON specBody). reflexivity.
Defined.

(** ** The key-pattern pass *)

Section KeyPatternMore.

Variable re : Regexp.

(** The flag of a pass over a value is raised exactly when the value holds,
    through objects alone, a string under a matching key. *)
Lemma concealNested_flag (v : JSON) :
  (concealNested re v).1 = true
  ↔ ∃ p k s, lookupPath (p ++ [k]) v = Some (JStr s)
             ∧ MatchString re k = true.
Proof.
  induction v as [ | | | | |m IH] using JSON_ind;
    try (split; [done|]; intros (p & k & s' & Hp & _);
         by destruct p).
  rewrite concealNested_obj. cbn [fst]. rewrite concealLoop_flag. split.
  - intros (k & x & Hk & Hx).
    destruct x as [ | | |s| |n]; try done.
    + exists [], k, s. simpl. rewrite Hk. split; [done|].
      simpl in Hx. by destruct (MatchString re k).
    + apply (IH k (JObj n) Hk) in Hx as (p & k' & s & Hp & Hmatch).
      exists (k :: p), k', s. split; [|done].
      simpl. by rewrite Hk.
  - intros (p & k & s & Hp & Hmatch). destruct p as [|k0 p]; simpl in Hp.
    + destruct (m !! k) as [x|] eqn:Hk; [|done]. simpl in Hp.
      injection Hp as ->. exists k, (JStr s). split; [done|].
      simpl. by rewrite Hmatch.
    + destruct (m !! k0) as [y|] eqn:Hk0; [|done]. simpl in Hp.
      exists k0, y. split; [done|].
      destruct y as [ | | | | |n]; try (by destruct p).
      apply (IH k0 (JObj n) Hk0). by exists p, k, s.
Qed.

(** What the loop leaves at the end of a chain of keys comes from what was
    there. *)
Lemma concealLoop_lookupPath_inv (p : list string) (k : string) (y : JSON)
    (m : gmap string JSON) :
  lookupPath (p ++ [k]) (JObj (concealLoop re m).2) = Some y →
  ∃ x, lookupPath (p ++ [k]) (JObj m) = Some x
       ∧ y = (concealEntry re k x).2.
Proof.
  intros Hy. destruct (lookupPath (p ++ [k]) (JObj m)) as [x|] eqn:Hx.
  - exists x. split; [done|].
    rewrite (concealLoop_lookupPath re p k x m Hx) in Hy. by injection Hy.
  - by rewrite (concealLoop_lookupPath_None re _ m Hx) in Hy.
Qed.

End KeyPatternMore.

Lemma concealMap_flag_iff_helper (a : auditLog) (m : gmap string JSON) :
  (concealMap a m).1 = true
  ↔ ∃ p k s, lookupPath (p ++ [k]) (JObj m) = Some (JStr s)
             ∧ MatchString (keysToConcealRegex a) k = true.
Proof.
  rewrite <-concealNested_flag. by rewrite concealNested_obj.
Qed.

(** X11.  [concealMap] reports a change exactly when the map holds, at the
    end of some chain of object keys, a plain string under a key that
    matches the pattern. *)
Theorem concealMap_flag_iff (a : auditLog) (m : gmap string JSON) :
  (concealMap a m).1 = true
  ↔ ∃ p k s, lookupPath (p ++ [k]) (JObj m) = Some (JStr s)
             ∧ MatchString (keysToConcealRegex a) k = true.
Proof. apply concealMap_flag_iff_helper. Qed.

(** X12.  Run on the map it has left, [concealMap] reports what it
    reported and leaves the map as it is. *)
Theorem concealMap_again (a : auditLog) (m : gmap string JSON) :
  concealMap a (concealMap a m).2 = concealMap a m
  ∧ (concealMap a (concealMap a m).2).2 = (concealMap a m).2.
Proof.
  unfold concealMap. by rewrite concealLoop_again.
Qed.

(** X13.  The marker is put only where a string stood under a matching
    key: a place that holds the marker after [concealMap] held a string
    before, and either its key matches or the string was the marker
    already. *)
Theorem concealMap_marker_origin (a : auditLog) (m : gmap string JSON)
    (p : list string) (k : string) :
  lookupPath (p ++ [k]) (JObj (concealMap a m).2) = Some (JStr redacted) →
  ∃ s, lookupPath (p ++ [k]) (JObj m) = Some (JStr s)
       ∧ (MatchString (keysToConcealRegex a) k = true ∨ s = redacted).
Proof.
  unfold concealMap. intros (x & Hx & Hy)%concealLoop_lookupPath_inv.
  destruct x as [ | | |s| |n]; try done.
  exists s. split; [done|]. simpl in Hy.
  destruct (MatchString (keysToConcealRegex a) k); [by left|].
  right. by injection Hy.
Qed.

Lemma concealMap_marker_origin_witness :
  lookupPath (["spec"] ++ ["password"])
    (JObj (concealMap (session 3 usersURI specBody) specTree).2)
  = Some (JStr redacted)
  ∧ ∃ s, lookupPath (["spec"] ++ ["password"]) (JObj specTree)
         = Some (JStr s)
         ∧ (MatchString sensitiveKeys "password" = true ∨ s = redacted).
Proof.
  split; [vm_compute; reflexivity|].
  apply (concealMap_marker_origin (session 3 usersURI specBody) specTree
           ["spec"] "password").
  vm_compute. reflexivity.
Defined.

(** X14.  With a pattern that matches no key, [concealMap] reports no
    change and leaves the map as it is, and on a URI without [secrets] the
    redaction returns every body as it came. *)
Theorem concealSensitiveData_no_match `{EncodingJSON} (a : auditLog)
    (requestURI : string) (body : bytes) (m : gmap string JSON) :
  (∀ k, MatchString (keysToConcealRegex a) k = false) →
  concealMap a m = (false, m)
  ∧ (strings_Contains requestURI "secrets" = false →
     concealSensitiveData a requestURI body = body).
Proof.
  intros Hnone.
  assert (∀ m', concealMap a m' = (false, m')) as Hmap.
  { intros m'.
    assert ((concealMap a m').1 = false) as Hflag.
    { apply not_true_is_false.
      intros (p & k & s & _ & Hk)%concealMap_flag_iff_helper.
      by rewrite Hnone in Hk. }
    pose proof (concealLoop_unchanged a m' Hflag) as Hsame.
    unfold concealMap in *. destruct (concealLoop _ m'). simpl in *.
    congruence. }
  split; [done|]. intros Huri. unfold concealSensitiveData.
  destruct (json_Unmarshal body) as [m'|e]; [|done].
  rewrite concealSecretData_elsewhere by done. by rewrite Hmap.
Qed.

Lemma concealSensitiveData_no_match_witness :
  (∀ k, MatchString
          (keysToConcealRegex
             (mkAuditLog (log_ (session 3 usersURI specBody)) (sinkAt 3)
                specBody matchNothing)) k = false)
  ∧ strings_Contains usersURI "secrets" = false
  ∧ concealSensitiveData (H := RefJSON.codec)
      (mkAuditLog (log_ (session 3 usersURI specBody)) (sinkAt 3) specBody
         matchNothing)
      usersURI specBody
    = specBody.
Proof.
  split; [reflexivity|]. split; [reflexivity|].
  apply (concealSensitiveData_no_match (H := RefJSON.codec)
           (mkAuditLog (log_ (session 3 usersURI specBody)) (sinkAt 3)
              specBody matchNothing)
           usersURI specBody ∅); reflexivity.
Defined.

(** ** The Secret pass *)

Lemma prefix_app (sub s : string) :
  String.prefix sub s = true ↔ ∃ post, s = sub ++ post.
Proof.
  revert s. induction sub as [|c sub IH]; intros s.
  - split; [intros _; by exists s|by destruct s].
  - destruct s as [|d s]; [split; [done|by intros [? ?]]|].
    change (String.prefix (String c sub) (String d s))
      with (if ascii_dec c d then String.prefix sub s else false).
    destruct (ascii_dec c d) as [->|Hne].
    + rewrite IH. split; intros [post Hpost]; exists post.
      * change (String d s = String d (sub ++ post)). by rewrite Hpost.
      * by injection Hpost.
    + split; [done|]. intros [post Hpost]. by injection Hpost.
Qed.

Lemma strings_Contains_spec (s substr : string) :
  strings_Contains s substr = true ↔ ∃ pre post, s = pre ++ substr ++ post.
Proof.
  assert (∀ t, strings_Contains t substr
               = String.prefix substr t
                 || match t with
                    | EmptyString => false
                    | String _ t' => strings_Contains t' substr
                    end) as Hunfold by (by intros []).
  induction s as [|c s IH]; rewrite Hunfold.
  - rewrite orb_false_r, prefix_app. split.
    + intros [post Hpost]. by exists EmptyString, post.
    + intros (pre & post & Hs). destruct pre; [by exists post|done].
  - rewrite orb_true_iff, prefix_app, IH. split.
    + intros [[post Hpost]|(pre & post & Hs)].
      * by exists EmptyString, post.
      * exists (String c pre), post.
        change (String c s = String c (pre ++ substr ++ post)).
        by rewrite Hs.
    + intros (pre & post & Hs). destruct pre as [|d pre].
      * left. by exists post.
      * right. injection Hs as _ Hs. by exists pre, post.
Qed.

(** X15.  The Secret pass reports a change exactly when the URI holds the
    text [secrets] somewhere and [data] or [stringData] holds an object,
    be it an empty one. *)
Theorem concealSecretData_flag_iff (requestURI : string)
    (m : gmap string JSON) :
  (concealSecretData requestURI m).1 = true
  ↔ (∃ pre post, requestURI = pre ++ "secrets" ++ post)
    ∧ (is_Some (asMap (m !! "data")) ∨ is_Some (asMap (m !! "stringData"))).
Proof.
  rewrite <-strings_Contains_spec. unfold concealSecretData.
  destruct (strings_Contains requestURI "secrets");
    [|split; [done|by intros [? _]]].
  destruct (asMap (m !! "data")) as [d|]; simpl.
  - split; [|done]. intros _. split; [done|]. left. eauto.
  - destruct (asMap (m !! "stringData")) as [d|]; simpl.
    + split; [|done]. intros _. split; [done|]. right. eauto.
    + split; [done|]. by intros [_ [[? ?]|[? ?]]].
Qed.

(** X16.  The Secret pass writes under one key and no other: every key
    but [data] and [stringData] holds what it held; when [data] holds an
    object, [stringData] is left as it is, with its values; when [data]
    holds no object it is left as it is; and the map has the keys it
    had. *)
Theorem concealSecretData_one_key (requestURI : string)
    (m : gmap string JSON) :
  (∀ k, k ≠ "data" → k ≠ "stringData" →
        (concealSecretData requestURI m).2 !! k = m !! k)
  ∧ (is_Some (asMap (m !! "data")) →
     (concealSecretData requestURI m).2 !! "stringData" = m !! "stringData")
  ∧ (asMap (m !! "data") = None →
     (concealSecretData requestURI m).2 !! "data" = m !! "data")
  ∧ dom (concealSecretData requestURI m).2 = dom m.
Proof.
  unfold concealSecretData.
  destruct (strings_Contains requestURI "secrets"); [|done].
  destruct (asMap (m !! "data")) as [d|] eqn:Hdata; simpl.
  - apply asMap_Some in Hdata. repeat split.
    + intros k Hk _. by rewrite lookup_insert_ne.
    + intros _. by rewrite lookup_insert_ne.
    + done.
    + by apply dom_insert_lookup_L.
  - destruct (asMap (m !! "stringData")) as [d|] eqn:Hstring; simpl.
    + apply asMap_Some in Hstring. repeat split.
      * intros k _ Hk. by rewrite lookup_insert_ne.
      * by intros [? ?].
      * intros _. by rewrite lookup_insert_ne.
      * by apply dom_insert_lookup_L.
    + repeat split; try done.
Qed.

Lemma concealSecretData_one_key_witness :
  is_Some (asMap (secretTree !! "data"))
  ∧ (concealSecretData secretsURI secretTree).2 !! "stringData"
    = Some (JObj (<["note" := JStr "plain"]> ∅)).
Proof.
  split; [by eexists|].
  destruct (concealSecretData_one_key secretsURI secretTree)
    as (_ & Hstring & _).
  rewrite Hstring; [reflexivity|by eexists].
Defined.

(** ** The redaction on bodies *)

(** X17.  A body that decodes to a map without keys ([{}], with any
    blanks, or [null]) comes back as it came, on any URI and with any
    pattern. *)
Theorem concealSensitiveData_empty `{EncodingJSON} (a : auditLog)
    (requestURI : string) (body : bytes) :
  json_Unmarshal body = Ok ∅ →
  concealSensitiveData a requestURI body = body.
Proof.
  intros Hm. rewrite (concealSensitiveData_tree a requestURI body ∅ Hm).
  rewrite concealTree_eq. cbn [fst snd].
  rewrite concealSecretData_neither by (by rewrite lookup_empty).
  cbn [fst snd]. unfold concealMap, concealLoop.
  by rewrite map_fold_empty.
Qed.

Lemma concealSensitiveData_empty_witness :
  json_Unmarshal (EncodingJSON := RefJSON.codec) blankObject = Ok ∅
  ∧ concealSensitiveData (H := RefJSON.codec)
      (session 3 secretsURI blankObject) secretsURI blankObject
    = blankObject.
Proof.
  split; [vm_compute; reflexivity|].
  apply (concealSensitiveData_empty (H := RefJSON.codec)
           (session 3 secretsURI blankObject) secretsURI blankObject).
  vm_compute. reflexivity.
Defined.

(** X18.  Decoding the redacted body gives the redacted tree: when the
    encoder accepts the tree that the two passes leave and the decoder reads
    back what it wrote, the result of the redaction decodes to that tree,
    whether it is a new encoding or the body as it came. *)
Theorem concealSensitiveData_decodes `{EncodingJSON} (a : auditLog)
    (requestURI : string) (body : bytes) (m : gmap string JSON) :
  json_Unmarshal body = Ok m →
  (∀ e, json_Marshal (concealTree a requestURI m).2 ≠ Err e) →
  roundTrips (concealTree a requestURI m).2 →
  json_Unmarshal (concealSensitiveData a requestURI body)
  = Ok (concealTree a requestURI m).2.
Proof.
  intros Hm Hencodes Hround.
  rewrite (concealSensitiveData_tree a requestURI body m Hm).
  destruct (concealTree a requestURI m).1 eqn:Hflag.
  - destruct (json_Marshal _) as [newBody|e] eqn:Hnew.
    + by apply Hround.
    + by destruct (Hencodes e).
  - by rewrite concealTree_unchanged.
Qed.

Lemma concealSensitiveData_decodes_witness :
  json_Unmarshal (EncodingJSON := RefJSON.codec) secretBody = Ok secretTree
  ∧ json_Unmarshal (EncodingJSON := RefJSON.codec)
      (concealSensitiveData (H := RefJSON.codec)
         (session 3 secretsURI secretBody) secretsURI secretBody)
    = Ok (concealTree (session 3 secretsURI secretBody) secretsURI
            secretTree).2.
Proof.
  split; [vm_compute; reflexivity|].
  assert (json_Marshal (EncodingJSON := RefJSON.codec)
            (concealTree (session 3 secretsURI secretBody) secretsURI
               secretTree).2
          = Ok ("{" ++ quoted "data" ++ ":{" ++ quoted "tls.key" ++ ":"
                ++ quoted redacted ++ "}," ++ quoted "stringData" ++ ":{"
                ++ quoted "note" ++ ":" ++ quoted "plain" ++ "}}")) as Henc
    by (vm_compute; reflexivity).
  apply (concealSensitiveData_decodes (H := RefJSON.codec)
           (session 3 secretsURI secretBody) secretsURI secretBody
           secretTree).
  - vm_compute. reflexivity.
  - intros e He. rewrite Henc in He. discriminate.
  - intros b Hb. rewrite Henc in Hb. injection Hb as <-.
    vm_compute. reflexivity.
Defined.

(** ** The life of a session *)

(** X19.  The record of a session made by [newAuditLog] and closed by
    [write] holds the identifier, URI, method, remote address and arrival
    time fixed at creation, the user, status code and time given to [write],
    the filtered headers, and empty [RequestBody] and [ResponseBody] fields:
    the bodies reach the line only as the fields that [write] appends. *)
Theorem session_record `{EncodingJSON} (w : LogWriter)
    (req req' : http.Request) (re : Regexp) (uid now : string)
    (a : auditLog) (userInfo : option User)
    (reqHeaders resHeaders : http.Header) (resCode : Z) (resBody : bytes)
    (departed : string) :
  newAuditLog w req re uid now = (Ok a, req') →
  log_ (write a userInfo reqHeaders resHeaders resCode resBody departed).2
  = mkLog uid (http.RequestURI req) userInfo (http.Method req)
      (http.RemoteAddr req) now departed resCode
      (filterOutHeaders reqHeaders sensitiveRequestHeader)
      (filterOutHeaders resHeaders sensitiveResponseHeader)
      EmptyString EmptyString.
Proof.
  intros Hnew.
  destruct (write_session a userInfo reqHeaders resHeaders resCode resBody
              departed) as (-> & _).
  assert (log_ a
          = mkLog uid (http.RequestURI req) None (http.Method req)
              (http.RemoteAddr req) now EmptyString 0 ∅ ∅
              EmptyString EmptyString) as ->; [|done].
  unfold newAuditLog in Hnew.
  destruct ((levelRequest <=? Level w)%Z && bodyMethod (http.Method req)
            && String.eqb (http.Get (http.Header_ req) "Content-Type")
                 contentTypeJSON); [|by injection Hnew as <- _].
  destruct (readBodyWithoutLosingContent req) as [[b|e] req0]; [|done].
  by injection Hnew as <- _.
Qed.

Lemma session_record_witness :
  newAuditLog (sinkAt 3) postJSON sensitiveKeys uid0 arrival
  = (Ok (session 3 usersURI specBody),
     http.withBody postJSON (bytes_NewBuffer specBody))
  ∧ log_ (write (H := RefJSON.codec) (session 3 usersURI specBody)
            (Some admin) traced jsonResponse 200 secretBody departure).2
    = mkLog uid0 usersURI (Some admin) "POST" "10.0.0.7:4312" arrival
        departure 200
        (filterOutHeaders traced sensitiveRequestHeader)
        (filterOutHeaders jsonResponse sensitiveResponseHeader)
        EmptyString EmptyString.
Proof.
  split; [reflexivity|].
  apply (session_record (H := RefJSON.codec) (sinkAt 3) postJSON
           (http.withBody postJSON (bytes_NewBuffer specBody))
           sensitiveKeys uid0 arrival (session 3 usersURI specBody)).
  reflexivity.
Defined.
